(** * GasExposureAnalytics: a shallow embedding of [src/GasExposureAnalytics.py]

    The Python class [GasExposureAnalytics] validates an exposure-limit
    configuration and, once a minute, turns the trailing block of the sensor
    log into time-weighted averages (TWA), limit gauges and a status LED per
    firefighter.

    Conventions of the embedding.
    - A [pd.Timestamp] is its integer count of nanoseconds ([Z]).  The sensor
      log is stored against minute-floor keys (column [timestamp_mins]), so a
      row of the log carries a minute number [m], standing for the timestamp
      [m * MINUTE].
    - Sensor values, limits and averages are Python floats; they are
      idealised as exact rationals ([Q]).  A missing cell (NaN / None) is
      [None].
    - A [DataFrame] is the list of its rows, a Python [dict] is a [gmap].
    - Python exceptions are the [Err] results of the [result] monad. *)

From Stdlib Require Import ZArith QArith Qround Lia Lqa.
From stdpp Require Import base option list sorting gmap strings.

Local Open Scope Z_scope.

(** ** Exceptions and the error monad *)

Inductive exn : Type :=
| KeyError (key : string)
| IndexError
| ValueError (what : string)
| TypeError (what : string)
| AssertionError (message : list (nat * string)).

Inductive result (A : Type) : Type :=
| Ok (a : A)
| Err (e : exn).
Arguments Ok {A} a.
Arguments Err {A} e.

#[global] Instance result_ret : MRet result := fun _ a => Ok a.
#[global] Instance result_bind : MBind result :=
  fun _ _ f m => match m with Ok a => f a | Err e => Err e end.

(** [mapM]-style traversal: the first exception wins, as in a Python loop or
    comprehension. *)
Fixpoint traverse {A B : Type} (f : A -> result B) (l : list A) : result (list B) :=
  match l with
  | [] => Ok []
  | x :: tl => y ← f x; ys ← traverse f tl; Ok (y :: ys)
  end.

(** ** Constants *)

Definition GREEN : Z := 1.
Definition YELLOW : Z := 2.
Definition RED : Z := 3.

Definition GREEN_RANGE_START : Z := 0.
Definition RED_RANGE_START : Z := 99.

Definition CONFIG_FILENAME : string := "prometeo_config.json".
Definition GAS_LIMITS_PROPERTY : string := "gas_limits".
Definition SUPPORTED_GASES_PROPERTY : string := "supported_gases".
Definition YELLOW_WARNING_PERCENT_PROPERTY : string := "yellow_warning_percent".
Definition SAFE_ROUNDING_FACTOR_PROPERTY : string := "safe_rounding_factor".

(** [SENSOR_RANGE_PPM]: the hard-coded sensitivity range (min, max) of each
    sensor; looking up any other gas is a [KeyError]. *)
Definition SENSOR_RANGE_PPM : gmap string (Q * Q) :=
  <["carbon_monoxide" := (1 # 1, 1000 # 1)%Q]>
  (<["nitrogen_dioxide" := (5 # 100, 10 # 1)%Q]> ∅).

(** ** Configuration *)

(** A JSON number: [isinstance(x, int)] holds of [JInt] only. *)
Inductive json_number : Type :=
| JInt (z : Z)
| JReal (q : Q).

Record window : Type := Window {
  label : string;
  mins : Z;
  gas_limits : gmap string Q
}.

Record config : Type := Config {
  WINDOWS_AND_LIMITS : list window;
  SUPPORTED_GASES : list string;
  YELLOW_WARNING_PERCENT : Z;
  SAFE_ROUNDING_FACTOR : json_number
}.

(** ** [_validate_config] *)

(** The five diagnostics, one constructor per [message] of the source. *)
Inductive config_issue : Type :=
| GasSetsMismatch (mismatched_configs : list window)
| SupportedGasNotCovered (supported : list string) (covered : list string)
| LimitOutsideSensorRange (limits : list Q) (gas : string) (range : Q * Q)
| YellowNotAPercentage (yellow : Z)
| RoundingFactorNotNatural (factor : json_number).

Definition Qltb (a b : Q) : bool := negb (Qle_bool b a).

(** Python's [min] and [max] of a list: [ValueError] on the empty list. *)
Definition py_min (l : list Q) : result Q :=
  match l with
  | [] => Err (ValueError "min() arg is an empty sequence")
  | x :: tl => Ok (foldl (fun m y => if Qltb y m then y else m) x tl)
  end.

Definition py_max (l : list Q) : result Q :=
  match l with
  | [] => Err (ValueError "max() arg is an empty sequence")
  | x :: tl => Ok (foldl (fun m y => if Qltb m y then y else m) x tl)
  end.

(** [d[k]] on a dict. *)
Definition getitem {V : Type} (d : gmap string V) (k : string) : result V :=
  match d !! k with
  | Some v => Ok v
  | None => Err (KeyError k)
  end.

(** [l[0]] on a list. *)
Definition first_item {A : Type} (l : list A) : result A :=
  match l with
  | [] => Err IndexError
  | x :: _ => Ok x
  end.

Definition same_gases (w w0 : window) : bool :=
  bool_decide (dom (gas_limits w) = dom (gas_limits w0)).

(** [[idx for idx, window in enumerate(W) if window.keys() != W[0].keys()]].
    [W[0]] is only evaluated inside the comprehension, hence never on an
    empty list. *)
Definition mismatched_configs_idx (ws : list window) : list nat :=
  match ws with
  | [] => []
  | w0 :: _ =>
      omap (fun iw : nat * window => if same_gases iw.2 w0 then None else Some iw.1)
           (imap pair ws)
  end.

Section Validation.
Variable self : config.

(** Each check receives the issues collected so far and returns them with
    its own appended ([critical_config_issues += [message]]). *)

Definition check_gas_sets (issues : list config_issue) : result (list config_issue) :=
  let idx := mismatched_configs_idx (WINDOWS_AND_LIMITS self) in
  match idx with
  | [] => Ok issues
  | _ :: _ =>
      w0 ← first_item (WINDOWS_AND_LIMITS self);
      Ok (issues ++ [GasSetsMismatch
                       (w0 :: omap (fun i => WINDOWS_AND_LIMITS self !! i) idx)])
  end.

Definition check_supported_covered (issues : list config_issue)
  : result (list config_issue) :=
  w0 ← first_item (WINDOWS_AND_LIMITS self);
  if forallb (fun gas => bool_decide (gas ∈ dom (gas_limits w0))) (SUPPORTED_GASES self)
  then Ok issues
  else Ok (issues ++ [SupportedGasNotCovered (SUPPORTED_GASES self)
                        (elements (dom (gas_limits w0)))]).

Definition check_sensor_range_of (gas : string) (issues : list config_issue)
  : result (list config_issue) :=
  limits ← traverse (fun w => getitem (gas_limits w) gas) (WINDOWS_AND_LIMITS self);
  lo ← py_min limits;
  range ← getitem SENSOR_RANGE_PPM gas;
  if Qltb lo range.1 then Ok (issues ++ [LimitOutsideSensorRange limits gas range])
  else
    hi ← py_max limits;
    if Qltb range.2 hi then Ok (issues ++ [LimitOutsideSensorRange limits gas range])
    else Ok issues.

Fixpoint check_sensor_ranges (gases : list string) (issues : list config_issue)
  : result (list config_issue) :=
  match gases with
  | [] => Ok issues
  | gas :: rest =>
      issues' ← check_sensor_range_of gas issues;
      check_sensor_ranges rest issues'
  end.

Definition check_yellow (issues : list config_issue) : result (list config_issue) :=
  if bool_decide (0 < YELLOW_WARNING_PERCENT self) && bool_decide (YELLOW_WARNING_PERCENT self < 100)
  then Ok issues
  else Ok (issues ++ [YellowNotAPercentage (YELLOW_WARNING_PERCENT self)]).

Definition check_rounding (issues : list config_issue) : result (list config_issue) :=
  match SAFE_ROUNDING_FACTOR self with
  | JInt z => if bool_decide (0 <= z) then Ok issues
              else Ok (issues ++ [RoundingFactorNotNatural (JInt z)])
  | other => Ok (issues ++ [RoundingFactorNotNatural other])
  end.

(** The body of [_validate_config] up to, not including, the final
    [assert]: the list [critical_config_issues]. *)
Definition critical_config_issues : result (list config_issue) :=
  i1 ← check_gas_sets [];
  i2 ← check_supported_covered i1;
  i3 ← check_sensor_ranges (SUPPORTED_GASES self) i2;
  i4 ← check_yellow i3;
  check_rounding i4.

Definition issue_title (i : config_issue) : string :=
  match i with
  | GasSetsMismatch _ => "every time-window must cover the same set of gases"
  | SupportedGasNotCovered _ _ => "supported gas has no limits defined"
  | LimitOutsideSensorRange _ _ _ => "limit exceeds the sensitivity range of the sensor"
  | YellowNotAPercentage _ => "yellow_warning_percent should be greater than 0 and less than 100"
  | RoundingFactorNotNatural _ => "safe_rounding_factor should be a positive integer"
  end.

(** [assert valid_config, ''.join(... enumerate(critical_config_issues))]:
    [valid_config] is cleared exactly where an issue is appended. *)
Definition _validate_config : result unit :=
  issues ← critical_config_issues;
  match issues with
  | [] => Ok tt
  | _ :: _ => Err (AssertionError (imap (fun idx i => (S idx, issue_title i)) issues))
  end.
End Validation.

(** ** Numbers: [np.round], [DataFrame.round(0).astype(int)] *)

(** [np.rint]: round to the nearest integer, ties to the even one. *)
Definition rint (x : Q) : Z :=
  let f := Qfloor x in
  match (x - inject_Z f ?= 1 # 2)%Q with
  | Lt => f
  | Gt => f + 1
  | Eq => if Z.even f then f else f + 1
  end.

(** [np.round(x, decimals)]: scale by a power of ten, [rint], scale back. *)
Definition np_round (x : Q) (decimals : Z) : Q :=
  if bool_decide (0 <= decimals)
  then (inject_Z (rint (x * inject_Z (10 ^ decimals))) / inject_Z (10 ^ decimals))%Q
  else (inject_Z (rint (x / inject_Z (10 ^ (- decimals)))) * inject_Z (10 ^ (- decimals)))%Q.

(** One cell of [(window_twa_df * 100 / limits).round(0).astype(int)].  With
    a zero limit the quotient is infinite or NaN and [astype(int)] refuses
    it. *)
Definition gauge_of (twa limit : Q) : result Z :=
  if Qeq_bool limit 0
  then Err (ValueError "Cannot convert non-finite values (NA or inf) to integer")
  else Ok (rint (twa * inject_Z 100 / limit)).

(** ** [pd.cut] with explicit bin edges *)

Inductive edge : Type :=
| Fin (z : Z)
| Inf.   (* np.Inf *)

Definition edge_ltb (a b : edge) : bool :=
  match a, b with
  | Fin x, Fin y => bool_decide (x < y)
  | Fin _, Inf => true
  | Inf, _ => false
  end.

Definition edge_eqb (a b : edge) : bool :=
  match a, b with
  | Fin x, Fin y => bool_decide (x = y)
  | Inf, Inf => true
  | _, _ => false
  end.

(** [(np.diff(bins) < 0).any()] *)
Fixpoint any_decrease (bins : list edge) : bool :=
  match bins with
  | a :: (b :: _) as tl => edge_ltb b a || any_decrease tl
  | _ => false
  end.

(** [len(algos.unique(bins)) < len(bins)], on non-decreasing bins. *)
Fixpoint any_repeat (bins : list edge) : bool :=
  match bins with
  | a :: (b :: _) as tl => edge_eqb a b || any_repeat tl
  | _ => false
  end.

(** [bins.searchsorted(x, side='left')]: the first position whose edge is
    not below [x]. *)
Fixpoint searchsorted_left (bins : list edge) (x : Z) : nat :=
  match bins with
  | [] => O
  | b :: tl => if edge_ltb b (Fin x) then S (searchsorted_left tl x) else O
  end.

(** The two checks [pd.cut] makes on the bins before looking at any value. *)
Definition check_bins (bins : list edge) : result unit :=
  if any_decrease bins then Err (ValueError "bins must increase monotonically.")
  else if any_repeat bins && negb (bool_decide (length bins = 2%nat))
       then Err (ValueError "Bin edges must be unique")
       else Ok tt.

(** [pd.cut(x, bins, include_lowest=True, labels=labels)] at one value;
    intervals are closed on the right, the result [None] is NaN. *)
Definition cut_value (bins : list edge) (labels : list Z) (x : option Z) : option Z :=
  match x with
  | None => None
  | Some v =>
      let lowest := match head bins with
                    | Some b => edge_eqb b (Fin v)
                    | None => false
                    end in
      let ids := if lowest then 1%nat else searchsorted_left bins v in
      if bool_decide (ids = length bins) || bool_decide (ids = 0%nat) then None
      else labels !! (ids - 1)%nat
  end.

(** [Series.max()] / [DataFrame.max(axis='columns')]: NaN cells are skipped,
    the maximum of nothing is NaN. *)
Definition nanmax (cells : list (option Z)) : option Z :=
  foldl (fun acc c => match acc, c with
                      | Some a, Some b => Some (Z.max a b)
                      | None, c => c
                      | a, None => a
                      end) None cells.

Definition status_bins (yellow_warning_percent : Z) : list edge :=
  [Fin GREEN_RANGE_START; Fin (yellow_warning_percent - 1); Fin RED_RANGE_START; Inf].

(** The status of one row, given the cells of its gauge columns. *)
Definition status_LED (yellow_warning_percent : Z) (gauges : list (option Z))
  : result (option Z) :=
  _ ← check_bins (status_bins yellow_warning_percent);
  Ok (cut_value (status_bins yellow_warning_percent) [GREEN; YELLOW; RED] (nanmax gauges)).

(** ** Time *)

Definition MINUTE : Z := 60000000000.

(** [Timestamp.floor(freq='min')] *)
Definition floor_min (t : Z) : Z := t / MINUTE * MINUTE.

(** [pd.Timedelta(minutes = n)] *)
Definition Timedelta_minutes (n : Z) : Z := n * MINUTE.

(** ** Sensor log *)

(** The columns of one row of the sensor log. *)
Record Reading : Type := {
  firefighter_id : string;
  gas_ppm : gmap string Q;          (* supported gases; an absent gas is NaN *)
  telemetry : gmap string string    (* fields carried through to the output *)
}.

(** A frame indexed by [timestamp_mins]: minute number and columns. *)
Abbreviation sensor_frame := (list (Z * Reading)).

(** The resampled frame: a slot whose columns are all NaN is [None]. *)
Abbreviation resampled_frame := (list (Z * option Reading)).

(** The firefighter a slot belongs to; [None] is NaN. *)
Definition row_key (row : Z * option Reading) : option string :=
  firefighter_id <$> row.2.

(** Value-based label slice [df[start:stop]] on the timestamp index, both
    ends included. *)
Definition loc_slice {A : Type} (start stop : Z) (df : list (Z * A)) : list (Z * A) :=
  filter (fun row => start <= row.1 * MINUTE <= stop) df.

Definition index_le {A : Type} (a b : Z * A) : Prop := a.1 <= b.1.

#[global] Instance index_le_dec {A : Type} (a b : Z * A) : Decision (index_le a b) :=
  decide (a.1 <= b.1).

(** [DataFrame.sort_index()] *)
Definition sort_index {A : Type} (df : list (Z * A)) : list (Z * A) :=
  merge_sort index_le df.

(** ** [resample(1 min).backfill(limit=3)] *)

(** Backward fill of a dense column, scanning from the last slot: every
    observation resets [fill_count]; a missing slot takes the next
    observation while [fill_count < limit]. *)
Fixpoint bfill_scan {A : Type} (limit : nat) (l : list (option A))
  : list (option A) * option (A * nat) :=
  match l with
  | [] => ([], None)
  | cell :: tl =>
      let '(filled, next) := bfill_scan limit tl in
      match cell, next with
      | Some v, _ => (Some v :: filled, Some (v, O))
      | None, Some (v, fill_count) =>
          if bool_decide (fill_count < limit)%nat
          then (Some v :: filled, Some (v, S fill_count))
          else (None :: filled, Some (v, S fill_count))
      | None, None => (None :: filled, None)
      end
  end.

Definition backfill {A : Type} (limit : nat) (l : list (option A)) : list (option A) :=
  (bfill_scan limit l).1.

(** The row stored against minute [m], if any. *)
Fixpoint row_at {A : Type} (m : Z) (rows : list (Z * A)) : option A :=
  match rows with
  | [] => None
  | (m', r) :: tl => if bool_decide (m' = m) then Some r else row_at m tl
  end.

(** The one-minute grid from the first to the last row of a sorted group. *)
Definition minute_grid {A : Type} (rows : list (Z * A)) : list Z :=
  match rows, last rows with
  | (first, _) :: _, Some (lst, _) => seqZ first (lst - first + 1)
  | _, _ => []
  end.

(** Upsampling one firefighter's rows: reindex on the grid with
    [method='backfill', limit]; a non-unique index cannot be reindexed. *)
Definition resample_backfill {A : Type} (limit : nat) (rows : list (Z * A))
  : result (list (Z * option A)) :=
  if bool_decide (NoDup rows.*1)
  then let grid := minute_grid rows in
       Ok (zip grid (backfill limit ((fun m => row_at m rows) <$> grid)))
  else Err (ValueError "cannot reindex a non-unique index with a method or limit").

(** [groupby(FIREFIGHTER_ID_COL)]: the keys in sorted order, and the rows of
    one key in frame order. *)
Definition group_keys (df : sensor_frame) : list string :=
  merge_sort String.le (remove_dups ((fun row => firefighter_id row.2) <$> df)).

Definition group_rows (id : string) (df : sensor_frame) : sensor_frame :=
  filter (fun row => firefighter_id row.2 = id) df.

Definition resample_all (df : sensor_frame) : result resampled_frame :=
  groups ← traverse (fun id => resample_backfill 3 (group_rows id (sort_index df)))
                    (group_keys (sort_index df));
  Ok (concat groups).

(** ** [_get_block_of_sensor_readings] *)

Definition py_max_int (l : list Z) : result Z :=
  match l with
  | [] => Err (ValueError "max() arg is an empty sequence")
  | x :: tl => Ok (foldl Z.max x tl)
  end.

(** The rows of the sensor log between [window_end - longest window] and
    [window_end], both included (SQL [between], or [.loc] on the CSV frame),
    sorted by timestamp. *)
Definition _get_block_of_sensor_readings (self : config) (sensor_log : sensor_frame)
    (window_end : Z) : result sensor_frame :=
  let window_end := floor_min window_end in
  longest_window ← py_max_int (mins <$> WINDOWS_AND_LIMITS self);
  let window_start := window_end - Timedelta_minutes longest_window in
  Ok (sort_index (loc_slice window_start window_end sensor_log)).

(** ** [_calculate_TWA_and_gauge_for_all_firefighters] *)

(** [groupby(FIREFIGHTER_ID_COL).size()]: rows whose key is NaN belong to no
    group. *)
Definition groupby_size (df : resampled_frame) : gmap string nat :=
  foldl (fun acc row =>
           match row.2 with
           | None => acc
           | Some r => <[firefighter_id r := S (default O (acc !! firefighter_id r))]> acc
           end) ∅ df.

(** One column of [groupby(FIREFIGHTER_ID_COL).sum()]: a NaN cell adds
    nothing. *)
Definition groupby_sum (gas : string) (df : resampled_frame) : gmap string Q :=
  foldl (fun acc row =>
           match row.2 with
           | None => acc
           | Some r => <[firefighter_id r :=
                           (default 0 (acc !! firefighter_id r)
                            + default 0 (gas_ppm r !! gas))%Q]> acc
           end) ∅ df.

(** [Series.max()] of the group sizes; NaN ([None]) when there is no group. *)
Definition size_max (sizes : gmap string nat) : option nat :=
  foldr (fun n acc => Some (match acc with None => n | Some m => Nat.max n m end))
        None (map_to_list sizes).*2.

(** [size().max() <= window_mins]; a comparison with NaN is false. *)
Definition sanity_check (sizes : gmap string nat) (window_mins : Z) : bool :=
  match size_max sizes with
  | Some n => bool_decide (Z.of_nat n <= window_mins)
  | None => false
  end.

(** The TWA and gauge columns one window contributes to one firefighter,
    a cell per supported gas, in column order. *)
Record WindowResult : Type := {
  twa : list (string * Q);
  gauge : list (string * Z)
}.

(** The result of one window: its label and its rows, indexed by
    firefighter. *)
Abbreviation window_frame := (string * list (string * WindowResult))%type.

Definition rounding_decimals (self : config) : result Z :=
  match SAFE_ROUNDING_FACTOR self with
  | JInt z => Ok z
  | JReal _ => Err (TypeError "'float' object cannot be interpreted as an integer")
  end.

Section Window.
Variable self : config.
Variable cleaned : resampled_frame.    (* longest_window_cleaned_df *)
Variable current_timestamp : Z.
Variable w : window.

Definition window_df : resampled_frame :=
  loc_slice (current_timestamp - Timedelta_minutes (mins w) + Timedelta_minutes 1)
            current_timestamp cleaned.

(** [np.round(sum / float(window_sample_count), SAFE_ROUNDING_FACTOR)] *)
Definition window_twa (decimals : Z) (id gas : string) : Q :=
  np_round (default 0%Q (groupby_sum gas window_df !! id) / inject_Z (mins w)) decimals.

Definition window_row (decimals : Z) (limits : list Q) (id : string)
  : result (string * WindowResult) :=
  gauges ← traverse (fun gl : string * Q =>
                       g ← gauge_of (window_twa decimals id gl.1) gl.2; Ok (gl.1, g))
                    (zip (SUPPORTED_GASES self) limits);
  Ok (id, {| twa := (fun gas => (gas, window_twa decimals id gas)) <$> SUPPORTED_GASES self;
             gauge := gauges |}).

(** One iteration of the loop over the windows; [None] is [continue]. *)
Definition calculate_window : result (option window_frame) :=
  match window_df with
  | [] => Ok None
  | _ :: _ =>
      let sizes := groupby_size window_df in
      if sanity_check sizes (mins w)
      then
        decimals ← rounding_decimals self;
        limits ← traverse (fun gas => getitem (gas_limits w) gas) (SUPPORTED_GASES self);
        rows ← traverse (window_row decimals limits)
                        (merge_sort String.le (elements (dom sizes)));
        Ok (Some (label w, rows))
      else Err (AssertionError [])
  end.
End Window.

(** One row of [everything_for_1_min_df]. *)
Record AnalyticsRecord : Type := {
  rec_firefighter_id : option string;   (* index level 1; [None] is NaN *)
  rec_timestamp_mins : Z;               (* index level 2, in nanoseconds *)
  rec_sensor : option Reading;          (* latest sensor columns, or null *)
  rec_windows : list (string * option WindowResult);
  analytics_status_LED : option Z
}.

Definition mins_ge (a b : window) : Prop := mins b <= mins a.

#[global] Instance mins_ge_dec (a b : window) : Decision (mins_ge a b) :=
  decide (mins b <= mins a).

Fixpoint assoc {A : Type} (id : string) (rows : list (string * A)) : option A :=
  match rows with
  | [] => None
  | (k, v) :: tl => if bool_decide (k = id) then Some v else assoc id tl
  end.

(** The gauge cells one window frame gives the row of [key]: NaN in every
    gauge column when the frame has no row for it. *)
Definition gauge_cells (n_gases : nat) (cell : option WindowResult) : list (option Z) :=
  match cell with
  | Some r => (fun g : string * Z => Some g.2) <$> gauge r
  | None => replicate n_gases None
  end.

Section Calculate.
Variable self : config.
Variable sensor_log_chunk_df : sensor_frame.
Variable current_timestamp : Z.

Definition windows_in_descending_order : list window :=
  merge_sort mins_ge (WINDOWS_AND_LIMITS self).

Definition common_key : Z :=
  floor_min (current_timestamp - Timedelta_minutes 1).

(** [longest_window_cleaned_df.loc[[common_key], :]], empty when
    [common_key] is not in the index. *)
Definition latest_sensor_readings (cleaned : resampled_frame) : resampled_frame :=
  filter (fun row => row.1 * MINUTE = common_key) cleaned.

(** [pd.concat(latest_sensor_readings + calculations_for_all_windows,
    axis='columns')] followed by the status column: an outer join on the
    index (firefighter, timestamp).  The rows are the distinct keys of the
    joined frames; their order in the result is not modelled. *)
Definition merged_index (latest : resampled_frame) (calcs : list window_frame)
  : list (option string) :=
  remove_dups ((row_key <$> latest)
               ++ ((fun row : string * WindowResult => Some row.1)
                     <$> concat (snd <$> calcs))).

Definition latest_of (latest : resampled_frame) (key : option string) : option Reading :=
  match key with
  | None => None
  | Some id =>
      match list_find (fun row => row_key row = Some id) latest with
      | Some (_, (_, cell)) => cell
      | None => None
      end
  end.

(** The cell a window frame has for [key]; NaN when it has no such row. *)
Definition frame_cell (key : option string) (f : window_frame) : option WindowResult :=
  match key with
  | Some id => assoc id f.2
  | None => None
  end.

Definition merged_row (latest : resampled_frame) (calcs : list window_frame)
    (key : option string) : result AnalyticsRecord :=
  let cells := (fun f : window_frame => (f.1, frame_cell key f)) <$> calcs in
  status ← status_LED (YELLOW_WARNING_PERCENT self)
             (concat ((fun c : string * option WindowResult =>
                         gauge_cells (length (SUPPORTED_GASES self)) c.2) <$> cells));
  Ok {| rec_firefighter_id := key;
        rec_timestamp_mins := common_key;
        rec_sensor := latest_of latest key;
        rec_windows := cells;
        analytics_status_LED := status |}.

Definition everything_for_1_min (latest : resampled_frame) (calcs : list window_frame)
  : result (list AnalyticsRecord) :=
  match latest, calcs with
  | [], [] => Err (ValueError "No objects to concatenate")
  | _, _ =>
      if bool_decide (NoDup (row_key <$> latest))
         || bool_decide (calcs = [])
      then
        _ ← check_bins (status_bins (YELLOW_WARNING_PERCENT self));
        traverse (merged_row latest calcs) (merged_index latest calcs)
      else Err (ValueError "cannot reindex on an axis with duplicate labels")
  end.

Definition _calculate_TWA_and_gauge_for_all_firefighters : result (list AnalyticsRecord) :=
  longest ← first_item windows_in_descending_order;
  let longest_window_df :=
    loc_slice (current_timestamp - Timedelta_minutes (mins longest) + Timedelta_minutes 1)
              current_timestamp sensor_log_chunk_df in
  cleaned ← resample_all longest_window_df;
  let latest := latest_sensor_readings cleaned in
  calcs ← traverse (calculate_window self cleaned current_timestamp)
                   windows_in_descending_order;
  everything_for_1_min latest (omap (fun c => c) calcs).
End Calculate.

(** ** [run_analytics] *)

(** The outcome of one call and the analytics table after it.  [Ok None] is
    Python's bare [return]. *)
Definition run_analytics (self : config) (sensor_log : sensor_frame)
    (analytics_table : list AnalyticsRecord) (time : Z) (commit : bool)
  : result (option (list AnalyticsRecord)) * list AnalyticsRecord :=
  match _get_block_of_sensor_readings self sensor_log time with
  | Err e => (Err e, analytics_table)
  | Ok [] => (Ok None, analytics_table)
  | Ok ((_ :: _) as sensor_log_df) =>
      match _calculate_TWA_and_gauge_for_all_firefighters self sensor_log_df time with
      | Err e => (Err e, analytics_table)
      | Ok analytics_df =>
          (Ok (Some analytics_df),
           if commit then analytics_table ++ analytics_df else analytics_table)
      end
  end.

(** Python evaluates the default [time=pd.Timestamp.now()] when the [def]
    statement runs, and stores the value in the function object. *)
Record function_object : Type := {
  default_time : Z;
  default_commit : bool
}.

(** Executing [def run_analytics(self, time=pd.Timestamp.now(), commit=True)]
    while the clock shows [now]. *)
Definition def_run_analytics (now : Z) : function_object :=
  {| default_time := now; default_commit := true |}.

(** A call made while the clock shows [now], either argument possibly
    omitted. *)
Definition call_run_analytics (f : function_object) (now : Z) (self : config)
    (sensor_log : sensor_frame) (analytics_table : list AnalyticsRecord)
    (time : option Z) (commit : option bool)
  : result (option (list AnalyticsRecord)) * list AnalyticsRecord :=
  run_analytics self sensor_log analytics_table
    (default (default_time f) time) (default (default_commit f) commit).

(** ** Reference definitions used by the statements below *)


(** [m] is the maximum of the gauge cells that hold a value. *)
Definition max_gauge (gauges : list (option Z)) (m : Z) : Prop :=
  Some m ∈ gauges /\ forall x, Some x ∈ gauges -> x <= m.

(** No gauge column holds a value. *)
Definition no_gauge (gauges : list (option Z)) : Prop :=
  forall c, c ∈ gauges -> c = None.

(** Forward fill, as the written specification words it: a missing slot
    takes the most recent prior observation, for at most [limit] slots in a
    row. *)
Fixpoint ffill_from {A : Type} (limit : nat) (prev : option (A * nat))
    (l : list (option A)) : list (option A) :=
  match l with
  | [] => []
  | Some v :: tl => Some v :: ffill_from limit (Some (v, O)) tl
  | None :: tl =>
      match prev with
      | Some (v, n) =>
          (if bool_decide (n < limit)%nat then Some v else None)
            :: ffill_from limit (Some (v, S n)) tl
      | None => None :: ffill_from limit None tl
      end
  end.

Definition resample_as_specified {A : Type} (limit : nat) (rows : list (Z * A))
  : list (Z * option A) :=
  let grid := minute_grid rows in
  zip grid (ffill_from limit None ((fun m => row_at m rows) <$> grid)).

(** The reading stored against the earliest of the minutes
    [m, m + 1, ..., m + k] that has one. *)
Fixpoint next_reading {A : Type} (k : nat) (m : Z) (rows : list (Z * A)) : option A :=
  match row_at m rows with
  | Some r => Some r
  | None =>
      match k with
      | O => None
      | S k' => next_reading k' (m + 1) rows
      end
  end.

(** The first observation of a column and the number of empty slots before
    it. *)
Fixpoint first_obs {A : Type} (l : list (option A)) : option (A * nat) :=
  match l with
  | [] => None
  | Some v :: _ => Some (v, O)
  | None :: tl => (fun vk : A * nat => (vk.1, S vk.2)) <$> first_obs tl
  end.

(** The first observation, provided fewer than [k] empty slots precede it. *)
Definition obs_within {A : Type} (k : nat) (l : list (option A)) : option A :=
  match first_obs l with
  | Some (v, d) => if bool_decide (d < k)%nat then Some v else None
  | None => None
  end.

(** A configuration whose second supported gas has no limit. *)
Definition uncovered_window : window :=
  {| label := "10min"; mins := 10;
     gas_limits := <["carbon_monoxide" := (420 # 1)%Q]> ∅ |}.

Definition uncovered_config : config :=
  {| WINDOWS_AND_LIMITS := [uncovered_window];
     SUPPORTED_GASES := ["carbon_monoxide"; "nitrogen_dioxide"];
     YELLOW_WARNING_PERCENT := 80;
     SAFE_ROUNDING_FACTOR := JInt 3 |}.

(** The per-minute samples of one firefighter in a frame, and the values of
    one gas they hold (a NaN cell counts for nothing). *)
Definition entity_rows (id : string) (df : resampled_frame) : list Reading :=
  omap (fun row : Z * option Reading =>
          match row.2 with
          | Some r => if bool_decide (firefighter_id r = id) then Some r else None
          | None => None
          end) df.



(** A small tick used to exercise the statements: firefighter A reports
    50 ppm at minutes 991 to 995 and 80 ppm at minute 999, firefighter B
    reports 7 ppm at minute 950, and the tick is minute 1000. *)
Definition example_window_10 : window :=
  {| label := "10min"; mins := 10;
     gas_limits := <["carbon_monoxide" := (100 # 1)%Q]> ∅ |}.

Definition example_window_60 : window :=
  {| label := "60min"; mins := 60;
     gas_limits := <["carbon_monoxide" := (50 # 1)%Q]> ∅ |}.

Definition example_config : config :=
  {| WINDOWS_AND_LIMITS := [example_window_10; example_window_60];
     SUPPORTED_GASES := ["carbon_monoxide"];
     YELLOW_WARNING_PERCENT := 80;
     SAFE_ROUNDING_FACTOR := JInt 3 |}.

Definition example_reading (id : string) (ppm : Q) : Reading :=
  {| firefighter_id := id;
     gas_ppm := <["carbon_monoxide" := ppm]> ∅;
     telemetry := ∅ |}.

Definition example_log : sensor_frame :=
  [(950, example_reading "B" (7 # 1)%Q);
   (991, example_reading "A" (50 # 1)%Q); (992, example_reading "A" (50 # 1)%Q);
   (993, example_reading "A" (50 # 1)%Q); (994, example_reading "A" (50 # 1)%Q);
   (995, example_reading "A" (50 # 1)%Q); (999, example_reading "A" (80 # 1)%Q)].

Definition example_tick : Z := 1000 * MINUTE.

Definition example_cleaned : resampled_frame :=
  match resample_all example_log with
  | Ok cleaned => cleaned
  | Err _ => []
  end.

Definition example_frame_10 : window_frame :=
  match calculate_window example_config example_cleaned example_tick example_window_10 with
  | Ok (Some f) => f
  | _ => (EmptyString, [])
  end.

Definition example_records : list AnalyticsRecord :=
  match _calculate_TWA_and_gauge_for_all_firefighters example_config example_log
          example_tick with
  | Ok records => records
  | Err _ => []
  end.

(** An exception other than a failed [assert]. *)
Definition not_assertion (e : exn) : Prop :=
  match e with
  | AssertionError _ => False
  | _ => True
  end.

(** The conditions the five checks of [_validate_config] test, read off
    their guards. *)
Definition within_sensor_range (gas : string) (limit : Q) : Prop :=
  exists range, SENSOR_RANGE_PPM !! gas = Some range
    /\ (range.1 <= limit)%Q /\ (limit <= range.2)%Q.

Definition limits_in_range (self : config) (gas : string) : Prop :=
  forall w, w ∈ WINDOWS_AND_LIMITS self ->
    exists limit, gas_limits w !! gas = Some limit /\ within_sensor_range gas limit.

Record accepted_config (self : config) : Prop := {
  accepted_windows : WINDOWS_AND_LIMITS self <> [];
  accepted_gas_sets :
    forall w0 w, head (WINDOWS_AND_LIMITS self) = Some w0 -> w ∈ WINDOWS_AND_LIMITS self ->
      dom (gas_limits w) = dom (gas_limits w0);
  accepted_limits : forall gas, gas ∈ SUPPORTED_GASES self -> limits_in_range self gas;
  accepted_yellow : 0 < YELLOW_WARNING_PERCENT self < 100;
  accepted_rounding : exists z, SAFE_ROUNDING_FACTOR self = JInt z /\ 0 <= z
}.

(** A configuration that asks for a gas without a hard-coded sensor range,
    and one whose yellow percentage is 1. *)
Definition ozone_config : config :=
  {| WINDOWS_AND_LIMITS :=
       [ {| label := "10min"; mins := 10;
            gas_limits := <["ozone" := (1 # 1)%Q]> ∅ |} ];
     SUPPORTED_GASES := ["ozone"];
     YELLOW_WARNING_PERCENT := 80;
     SAFE_ROUNDING_FACTOR := JInt 3 |}.

Definition yellow_one_config : config :=
  {| WINDOWS_AND_LIMITS := [example_window_10; example_window_60];
     SUPPORTED_GASES := ["carbon_monoxide"];
     YELLOW_WARNING_PERCENT := 1;
     SAFE_ROUNDING_FACTOR := JInt 3 |}.

(** A log in which A's latest reading is stored against the minute of the
    tick itself, minute 1000. *)
Definition tick_minute_log : sensor_frame :=
  [(990, example_reading "A" (50 # 1)%Q); (1000, example_reading "A" (80 # 1)%Q)].

Definition tick_minute_records : list AnalyticsRecord :=
  match _calculate_TWA_and_gauge_for_all_firefighters example_config tick_minute_log
          example_tick with
  | Ok records => records
  | Err _ => []
  end.

(** The first record of each example tick. *)
Definition no_record : AnalyticsRecord :=
  {| rec_firefighter_id := None; rec_timestamp_mins := 0; rec_sensor := None;
     rec_windows := []; analytics_status_LED := None |}.

Definition tick_minute_record : AnalyticsRecord := default no_record (head tick_minute_records).

Definition example_record_B : AnalyticsRecord := default no_record (head example_records).

(** * Properties *)

(** ** The error monad *)

Lemma bind_Ok {A B : Type} (m : result A) (f : A -> result B) (b : B) :
  m ≫= f = Ok b -> exists a, m = Ok a /\ f a = Ok b.
Proof. destruct m as [a|e]; simpl; [eauto | discriminate]. Qed.

Lemma bind_Err {A B : Type} (m : result A) (f : A -> result B) (e : exn) :
  m ≫= f = Err e -> m = Err e \/ exists a, m = Ok a /\ f a = Err e.
Proof. destruct m as [a|e']; simpl; [eauto | intros [= ->]; by left]. Qed.

Lemma traverse_Ok {A B : Type} (f : A -> result B) (l : list A) (ys : list B) :
  traverse f l = Ok ys -> Forall2 (fun x y => f x = Ok y) l ys.
Proof.
  revert ys. induction l as [|x tl IH]; simpl; intros ys H.
  - injection H as <-. constructor.
  - apply bind_Ok in H as (y & Hy & H).
    apply bind_Ok in H as (ys' & Hys & [= <-]).
    constructor; auto.
Qed.

Lemma traverse_Err {A B : Type} (f : A -> result B) (l : list A) (e : exn) :
  traverse f l = Err e -> exists x, x ∈ l /\ f x = Err e.
Proof.
  induction l as [|x tl IH]; simpl; [discriminate|].
  intros H. apply bind_Err in H as [H | (y & Hy & H)].
  - exists x. split; [left | done].
  - apply bind_Err in H as [H | (ys & _ & [=])].
    destruct (IH H) as (x' & Hin & Hx'). exists x'. split; [by right | done].
Qed.

Lemma traverse_total {A B : Type} (f : A -> result B) (l : list A) :
  (forall x, x ∈ l -> exists y, f x = Ok y) -> exists ys, traverse f l = Ok ys.
Proof.
  induction l as [|x tl IH]; intros H; simpl; [eauto|].
  destruct (H x) as [y ->]; [left|]. simpl.
  destruct IH as [ys ->]; [intros; apply H; by right|]. simpl. eauto.
Qed.

(** ** Status LED *)

Lemma nanmax_snoc (l : list (option Z)) (c : option Z) :
  nanmax (l ++ [c]) =
  match nanmax l, c with
  | Some a, Some b => Some (Z.max a b)
  | None, c => c
  | a, None => a
  end.
Proof. unfold nanmax. rewrite foldl_snoc. by destruct (foldl _ _ _), c. Qed.

Lemma nanmax_None (l : list (option Z)) : nanmax l = None <-> no_gauge l.
Proof.
  unfold no_gauge. induction l as [|c l IH] using rev_ind.
  - split; [intros _ c Hc; by apply elem_of_nil in Hc | done].
  - rewrite nanmax_snoc. split.
    + intros H c' Hc'. apply elem_of_app in Hc' as [Hc' | Hc'%list_elem_of_singleton].
      * apply IH; [|done]. destruct (nanmax l), c; congruence.
      * subst c'. destruct (nanmax l), c; congruence.
    + intros H. rewrite (proj2 IH), (H c); [done | set_solver | set_solver].
Qed.

Lemma nanmax_Some (l : list (option Z)) (m : Z) : nanmax l = Some m <-> max_gauge l m.
Proof.
  unfold max_gauge. revert m. induction l as [|c l IH] using rev_ind; intros m.
  - split; [discriminate | intros [H _]; by apply elem_of_nil in H].
  - rewrite nanmax_snoc. destruct (nanmax l) as [a|] eqn:Ha.
    + destruct (proj1 (IH a) eq_refl) as [Hin Hmax]. destruct c as [b|]; split.
      * intros [= <-]. split.
        -- destruct (Z.max_spec a b) as [[_ ->] | [_ ->]]; set_solver.
        -- intros x [Hx | Hx%list_elem_of_singleton]%elem_of_app;
             [specialize (Hmax x Hx) | injection Hx as ->]; lia.
      * intros [Hin' Hmax']. f_equal.
        assert (a <= m) by (apply Hmax'; set_solver).
        assert (b <= m) by (apply Hmax'; set_solver).
        apply elem_of_app in Hin' as [Hm | Hm%list_elem_of_singleton].
        -- specialize (Hmax m Hm). lia.
        -- injection Hm as ->. lia.
      * intros [= <-]. split; [set_solver|].
        intros x [Hx | Hx%list_elem_of_singleton]%elem_of_app; [auto | discriminate].
      * intros [Hin' Hmax']. f_equal.
        assert (a <= m) by (apply Hmax'; set_solver).
        apply elem_of_app in Hin' as [Hm | Hm%list_elem_of_singleton]; [|discriminate].
        specialize (Hmax m Hm). lia.
    + apply nanmax_None in Ha. destruct c as [b|]; split.
      * intros [= <-]. split; [set_solver|].
        intros x [Hx | Hx%list_elem_of_singleton]%elem_of_app;
          [by apply Ha in Hx | injection Hx as ->; lia].
      * intros [[Hm | Hm%list_elem_of_singleton]%elem_of_app _];
          [by apply Ha in Hm | done].
      * discriminate.
      * intros [[Hm | Hm%list_elem_of_singleton]%elem_of_app _];
          [by apply Ha in Hm | discriminate].
Qed.

Lemma check_bins_status (Y : Z) : 1 < Y < 100 -> check_bins (status_bins Y) = Ok tt.
Proof.
  intros H. unfold check_bins, status_bins, GREEN_RANGE_START, RED_RANGE_START. simpl.
  repeat (rewrite bool_decide_eq_false_2 by lia). reflexivity.
Qed.

(** The cut of one maximum, case by case. *)
Lemma cut_status_value (Y m : Z) :
  1 < Y < 100 ->
  cut_value (status_bins Y) [GREEN; YELLOW; RED] (Some m) =
  if bool_decide (m < 0) then None
  else if bool_decide (m <= Y - 1) then Some GREEN
  else if bool_decide (m <= 99) then Some YELLOW
  else Some RED.
Proof.
  intros H. unfold cut_value, status_bins, GREEN_RANGE_START, RED_RANGE_START. simpl.
  repeat case_bool_decide; simpl; try reflexivity; try lia.
Qed.




(** ** Gauges *)







(** Scenario B of the specification: a TWA of 145 ppm against a limit of
    100 ppm reads 145 percent. *)
Example gauge_exceeds_100 : gauge_of (145 # 1) (100 # 1) = Ok 145.
Proof. reflexivity. Qed.

(** ** Default arguments of [run_analytics] *)

(** C9 (the code departs from it): a call that omits [time] runs with the
    clock value captured when the [def] statement was executed, whatever the
    clock shows at the moment of the call; two such calls made at different
    moments therefore use the same 'now'. *)
Theorem omitted_time_is_definition_time (loaded_at now1 now2 : Z) (self : config)
    (sensor_log : sensor_frame) (table : list AnalyticsRecord) (commit : option bool) :
  call_run_analytics (def_run_analytics loaded_at) now1 self sensor_log table None commit
  = run_analytics self sensor_log table loaded_at (default true commit)
  /\ call_run_analytics (def_run_analytics loaded_at) now1 self sensor_log table None commit
     = call_run_analytics (def_run_analytics loaded_at) now2 self sensor_log table None commit.
Proof. split; reflexivity. Qed.

(** With the example log, a call at minute 1000 that omits [time], made by a
    process that defined the class at time 0, looks for data around time 0
    and finds none, where the same call with the current time produces
    records. *)
Example omitted_time_misses_current_data :
  (call_run_analytics (def_run_analytics 0) example_tick example_config example_log []
     None (Some false)).1 = Ok None
  /\ (call_run_analytics (def_run_analytics 0) example_tick example_config example_log []
        (Some example_tick) (Some false)).1 = Ok (Some example_records).
Proof. split; vm_compute; reflexivity. Qed.

(** ** Empty block *)

Lemma loc_slice_nil {A : Type} (start stop : Z) (df : list (Z * A)) :
  (forall row, row ∈ df -> ~ (start <= row.1 * MINUTE <= stop)) ->
  loc_slice start stop df = [].
Proof.
  unfold loc_slice. induction df as [|row df IH]; intros H; [done|].
  rewrite filter_cons_False by (apply H; left).
  apply IH. intros r Hr. apply H. by right.
Qed.


(** ** Configuration validation *)

Lemma getitem_Err {V : Type} (d : gmap string V) (k : string) (e : exn) :
  getitem d k = Err e -> e = KeyError k /\ d !! k = None.
Proof. unfold getitem. destruct (d !! k); [discriminate | by intros [= <-]]. Qed.

Lemma check_sensor_range_of_Err (self : config) (w0 : window) (ws : list window)
    (gas : string) (issues : list config_issue) (e : exn) :
  WINDOWS_AND_LIMITS self = w0 :: ws ->
  check_sensor_range_of self gas issues = Err e -> exists key, e = KeyError key.
Proof.
  intros Hw. unfold check_sensor_range_of. rewrite Hw.
  destruct (traverse _ (w0 :: ws)) as [limits|e'] eqn:Hl; simpl.
  - simpl in Hl. apply bind_Ok in Hl as (l0 & _ & Hl).
    apply bind_Ok in Hl as (ls & _ & [= <-]). simpl.
    destruct (getitem SENSOR_RANGE_PPM gas) as [range|e''] eqn:Hr; simpl.
    + repeat (destruct (Qltb _ _); simpl); discriminate.
    + intros [= <-]. apply getitem_Err in Hr as [-> _]. eauto.
  - intros [= <-]. apply traverse_Err in Hl as (w & _ & [-> _]%getitem_Err). eauto.
Qed.

Lemma check_sensor_ranges_uncovered (self : config) (w0 : window) (ws : list window)
    (gas : string) (gases : list string) (issues : list config_issue) :
  WINDOWS_AND_LIMITS self = w0 :: ws ->
  gas ∈ gases -> gas ∉ dom (gas_limits w0) ->
  exists key, check_sensor_ranges self gases issues = Err (KeyError key).
Proof.
  intros Hw Hin Hdom. revert issues.
  induction gases as [|g rest IH]; intros issues; [by apply elem_of_nil in Hin|].
  simpl. destruct (check_sensor_range_of self g issues) as [issues'|e] eqn:Hg; simpl.
  - apply elem_of_cons in Hin as [-> | Hin]; [|by apply IH].
    exfalso.
    assert (Hget : getitem (gas_limits w0) g = Err (KeyError g)).
    { unfold getitem. by rewrite (proj1 (not_elem_of_dom _ _) Hdom). }
    unfold check_sensor_range_of in Hg. rewrite Hw in Hg. cbn [traverse] in Hg.
    rewrite Hget in Hg. discriminate.
  - destruct (check_sensor_range_of_Err self w0 ws g issues e Hw Hg) as [key ->]. eauto.
Qed.

(** Without an exception the final [assert] passes exactly when no check
    recorded an issue, and fails with every recorded issue otherwise. *)
Lemma validate_config_outcome (self : config) (issues : list config_issue) :
  critical_config_issues self = Ok issues ->
  _validate_config self =
  match issues with
  | [] => Ok tt
  | _ :: _ => Err (AssertionError (imap (fun idx i => (S idx, issue_title i)) issues))
  end.
Proof. unfold _validate_config. intros ->. by destruct issues. Qed.

(** C4 (the code departs from it): when a supported gas has no limit in the
    first window, check 2 records its violation, but check 3 then looks that
    gas up in the window's limits and raises [KeyError]; validation stops
    there, and the aggregated diagnostic of the final [assert] is never
    produced. *)
Theorem uncovered_gas_aborts_validation (self : config) (w0 : window) (ws : list window)
    (gas : string) :
  WINDOWS_AND_LIMITS self = w0 :: ws ->
  gas ∈ SUPPORTED_GASES self -> gas ∉ dom (gas_limits w0) ->
  check_supported_covered self [] =
    Ok [SupportedGasNotCovered (SUPPORTED_GASES self) (elements (dom (gas_limits w0)))]
  /\ exists key, _validate_config self = Err (KeyError key).
Proof.
  intros Hw Hin Hdom. split.
  - unfold check_supported_covered. rewrite Hw. simpl.
    destruct (forallb _ _) eqn:Hall; [|done].
    rewrite forallb_forall in Hall. apply list_elem_of_In, Hall in Hin.
    by apply bool_decide_eq_true in Hin.
  - unfold _validate_config, critical_config_issues.
    assert (exists i1, check_gas_sets self [] = Ok i1) as [i1 ->].
    { unfold check_gas_sets. rewrite Hw.
      destruct (mismatched_configs_idx (w0 :: ws)); simpl; eauto. }
    simpl.
    assert (exists i2, check_supported_covered self i1 = Ok i2) as [i2 ->].
    { unfold check_supported_covered. rewrite Hw. simpl. destruct (forallb _ _); eauto. }
    simpl.
    destruct (check_sensor_ranges_uncovered self w0 ws gas (SUPPORTED_GASES self) i2)
      as [key ->]; [done..|].
    simpl. eauto.
Qed.

Lemma uncovered_gas_aborts_validation_witness :
  WINDOWS_AND_LIMITS uncovered_config = [uncovered_window]
  /\ check_supported_covered uncovered_config [] =
       Ok [SupportedGasNotCovered (SUPPORTED_GASES uncovered_config)
             (elements (dom (gas_limits uncovered_window)))]
  /\ exists key, _validate_config uncovered_config = Err (KeyError key).
Proof.
  split; [reflexivity|].
  apply (uncovered_gas_aborts_validation uncovered_config uncovered_window []
           "nitrogen_dioxide" eq_refl).
  - right. left.
  - intros H. apply elem_of_dom in H as [v Hv]. vm_compute in Hv. discriminate Hv.
Defined.

(** The failing configuration, evaluated: the violation found by check 2 is
    lost to a [KeyError]. *)
Example uncovered_config_KeyError :
  _validate_config uncovered_config = Err (KeyError "nitrogen_dioxide").
Proof. vm_compute. reflexivity. Qed.

(** ** Backfill *)

Lemma bfill_scan_state {A : Type} (limit : nat) (l : list (option A)) :
  (bfill_scan limit l).2 = first_obs l.
Proof.
  induction l as [|c tl IH]; [done|]. simpl.
  destruct (bfill_scan limit tl) as [filled next]. simpl in IH. subst next.
  destruct c as [v|]; [done|].
  destruct (first_obs tl) as [[v k]|]; [|done]. simpl. by case_bool_decide.
Qed.

Lemma backfill_cons {A : Type} (limit : nat) (c : option A) (tl : list (option A)) :
  backfill limit (c :: tl) =
  match c with
  | Some v => Some v
  | None => obs_within limit tl
  end :: backfill limit tl.
Proof.
  unfold backfill, obs_within. simpl.
  pose proof (bfill_scan_state limit tl) as Hst.
  destruct (bfill_scan limit tl) as [filled next]. simpl in *. subst next.
  destruct c as [v|]; [done|].
  destruct (first_obs tl) as [[v k]|]; [|done]. by case_bool_decide.
Qed.

Lemma length_backfill {A : Type} (limit : nat) (l : list (option A)) :
  length (backfill limit l) = length l.
Proof. induction l as [|c tl IH]; [done|]. rewrite backfill_cons. simpl. by rewrite IH. Qed.

Lemma backfill_lookup {A : Type} (limit : nat) (l : list (option A)) (i : nat) :
  backfill limit l !! i =
  (fun c => match c with
            | Some v => Some v
            | None => obs_within limit (drop (S i) l)
            end) <$> l !! i.
Proof.
  revert i. induction l as [|c tl IH]; intros i; [done|].
  rewrite backfill_cons. destruct i as [|i]; simpl; [by rewrite drop_0 | apply IH].
Qed.

Lemma obs_within_0 {A : Type} (l : list (option A)) : obs_within 0 l = None.
Proof. unfold obs_within. destruct (first_obs l) as [[v d]|]; [|done]. by case_bool_decide; [lia|]. Qed.

Lemma obs_within_S {A : Type} (k : nat) (c : option A) (tl : list (option A)) :
  obs_within (S k) (c :: tl) = match c with Some v => Some v | None => obs_within k tl end.
Proof.
  unfold obs_within. simpl. destruct c as [v|]; [done|].
  destruct (first_obs tl) as [[v d]|]; [|done]. simpl.
  repeat case_bool_decide; try done; lia.
Qed.

#[global] Instance index_le_trans {A : Type} : Transitive (@index_le A).
Proof. intros a b c. unfold index_le. lia. Qed.

#[global] Instance index_le_total {A : Type} : Total (@index_le A).
Proof. intros a b. unfold index_le. lia. Qed.

Lemma row_at_Some {A : Type} (m : Z) (rows : list (Z * A)) (r : A) :
  row_at m rows = Some r -> (m, r) ∈ rows.
Proof.
  induction rows as [|[m' r'] tl IH]; simpl; [discriminate|].
  case_bool_decide as Hm.
  - intros [= ->]. subst m'. left.
  - intros H. right. by apply IH.
Qed.

Lemma row_at_None {A : Type} (m : Z) (rows : list (Z * A)) :
  row_at m rows = None <-> m ∉ rows.*1.
Proof.
  induction rows as [|[m' r'] tl IH]; simpl.
  - split; [intros _ H; by apply elem_of_nil in H | done].
  - case_bool_decide as Hm.
    + subst m'. split; [discriminate | intros H; exfalso; apply H; left].
    + rewrite IH. rewrite not_elem_of_cons. naive_solver.
Qed.

Lemma sorted_le_last {A : Type} (rows : list (Z * A)) (x y : Z * A) :
  StronglySorted index_le rows -> last rows = Some x -> y ∈ rows -> y.1 <= x.1.
Proof.
  intros Hs [l' ->]%last_Some [Hy | Hy%list_elem_of_singleton]%elem_of_app.
  - apply (StronglySorted_app_1_elem_of index_le l' [x] y x Hs Hy). left.
  - subst y. lia.
Qed.

Lemma row_at_above {A : Type} (rows : list (Z * A)) (x : Z * A) (m : Z) :
  StronglySorted index_le rows -> last rows = Some x -> x.1 < m -> row_at m rows = None.
Proof.
  intros Hs Hl Hm. destruct (row_at m rows) as [r|] eqn:Hr; [|done].
  apply row_at_Some in Hr. pose proof (sorted_le_last rows x (m, r) Hs Hl Hr). simpl in *. lia.
Qed.

Lemma next_reading_above {A : Type} (rows : list (Z * A)) (hi : Z) (k : nat) (m : Z) :
  (forall m', hi < m' -> row_at m' rows = None) -> hi < m -> next_reading k m rows = None.
Proof.
  intros Habove. revert m. induction k as [|k IH]; intros m Hm; simpl.
  - by rewrite Habove.
  - rewrite Habove by done. apply IH. lia.
Qed.

Lemma obs_within_nil {A : Type} (k : nat) : obs_within k (@nil (option A)) = None.
Proof. done. Qed.

(** On the dense column of a grid, "the first observation within [k + 1]
    slots" reads the log at the minutes [m .. m + k]. *)
Lemma obs_within_dense {A : Type} (rows : list (Z * A)) (first n : Z) (k j : nat) :
  (forall m', first + n <= m' -> row_at m' rows = None) ->
  obs_within (S k) (drop j ((fun m => row_at m rows) <$> seqZ first n))
  = next_reading k (first + Z.of_nat j) rows.
Proof.
  intros Habove. revert j. induction k as [|k IH]; intros j.
  - destruct (decide (Z.of_nat j < n)) as [Hj | Hj].
    + erewrite drop_S; [|by rewrite list_lookup_fmap, lookup_seqZ_lt].
      rewrite obs_within_S, obs_within_0. simpl. by destruct (row_at _ _).
    + rewrite drop_ge by (rewrite length_fmap, length_seqZ; lia).
      rewrite obs_within_nil. simpl. by rewrite Habove by lia.
  - destruct (decide (Z.of_nat j < n)) as [Hj | Hj].
    + erewrite drop_S; [|by rewrite list_lookup_fmap, lookup_seqZ_lt].
      rewrite obs_within_S. simpl. destruct (row_at _ _); [done|].
      rewrite IH. f_equal. lia.
    + rewrite drop_ge by (rewrite length_fmap, length_seqZ; lia).
      rewrite obs_within_nil. symmetry.
      apply (next_reading_above rows (first + n - 1)); [|lia].
      intros m' Hm'. apply Habove. lia.
Qed.

Lemma minute_grid_above {A : Type} (rows : list (Z * A)) (first : Z) (r : A)
    (tl : list (Z * A)) (x : Z * A) (m : Z) :
  StronglySorted index_le rows -> rows = (first, r) :: tl -> last rows = Some x ->
  first + (x.1 - first + 1) <= m -> row_at m rows = None.
Proof. intros Hs _ Hl Hm. apply (row_at_above rows x); [done..|lia]. Qed.

(** C2, as written, fails: with readings at minutes 0 and 2 only, the empty
    minute 1 takes the later reading (40), not the earlier one (10). *)
Lemma forward_fill_counterexample :
  resample_backfill 3 [(0, 10); (2, 40)] <> Ok (resample_as_specified 3 [(0, 10); (2, 40)]).
Proof. vm_compute. discriminate. Qed.

(** C2 (amended): in the per-minute series of one firefighter, the slot of
    minute [m] holds the reading stored against the earliest of the minutes
    m, m+1, m+2, m+3 that has one, and is empty (no value, not zero) when
    none of them has: a missing minute is filled backwards from the next
    reading, at most 3 minutes back, so of a longer gap only the last 3
    minutes are filled. *)
Theorem resample_backfill_slot {A : Type} (rows : list (Z * A)) (cleaned : list (Z * option A)) :
  StronglySorted index_le rows ->
  resample_backfill 3 rows = Ok cleaned ->
  cleaned.*1 = minute_grid rows
  /\ forall m cell, (m, cell) ∈ cleaned -> cell = next_reading 3 m rows.
Proof.
  intros Hs. unfold resample_backfill. case_bool_decide; [|discriminate].
  intros [= <-]. split.
  { rewrite fst_zip; [done|]. by rewrite length_backfill, length_fmap. }
  intros m cell Hin. apply list_elem_of_lookup in Hin as [i Hi].
  apply lookup_zip_Some in Hi as [Hgrid Hcell].
  unfold minute_grid in *. destruct rows as [|[first r] tl]; [done|].
  destruct (last ((first, r) :: tl)) as [[lst rl]|] eqn:Hlast; [|done].
  remember ((first, r) :: tl) as rows eqn:Hrows.
  assert (Habove : forall m', first + (lst - first + 1) <= m' -> row_at m' rows = None).
  { intros m' Hm'. by apply (minute_grid_above rows first r tl (lst, rl)). }
  pose proof (lookup_lt_Some _ _ _ Hgrid) as Hlen. rewrite length_seqZ in Hlen.
  rewrite lookup_seqZ_lt in Hgrid by lia. injection Hgrid as <-.
  rewrite backfill_lookup, list_lookup_fmap, lookup_seqZ_lt in Hcell by lia.
  simpl in Hcell. injection Hcell as <-.
  change (next_reading 3 (first + Z.of_nat i) rows)
    with (match row_at (first + Z.of_nat i) rows with
          | Some r => Some r
          | None => next_reading 2 (first + Z.of_nat i + 1) rows
          end).
  destruct (row_at (first + Z.of_nat i) rows); [done|].
  rewrite (obs_within_dense rows first (lst - first + 1) 2 (S i) Habove).
  f_equal. lia.
Qed.

Lemma resample_backfill_slot_witness :
  StronglySorted index_le [(0, 10); (6, 40)]
  /\ resample_backfill 3 [(0, 10); (6, 40)]
     = Ok [(0, Some 10); (1, None); (2, None); (3, Some 40); (4, Some 40); (5, Some 40);
           (6, Some 40)]
  /\ [(0, Some 10); (1, None); (2, None); (3, Some 40); (4, Some 40); (5, Some 40);
      (6, Some 40)].*1 = minute_grid [(0, 10); (6, 40)]
  /\ forall m cell,
       (m, cell) ∈ [(0, Some 10); (1, None); (2, None); (3, Some 40); (4, Some 40);
                    (5, Some 40); (6, Some 40)] ->
       cell = next_reading 3 m [(0, 10); (6, 40)].
Proof.
  assert (Hs : StronglySorted index_le [(0, 10); (6, 40)]).
  { repeat constructor; unfold index_le; simpl; lia. }
  split; [exact Hs|]. split; [reflexivity|].
  apply (resample_backfill_slot [(0, 10); (6, 40)] _ Hs). reflexivity.
Defined.

(** ** Group-by aggregation *)

Lemma entity_rows_snoc (id : string) (df : resampled_frame) (row : Z * option Reading) :
  entity_rows id (df ++ [row]) =
  entity_rows id df ++
    match row.2 with
    | Some r => if bool_decide (firefighter_id r = id) then [r] else []
    | None => []
    end.
Proof.
  unfold entity_rows. rewrite omap_app. f_equal. simpl.
  destruct row.2 as [r|]; [|done]. by case_bool_decide.
Qed.

Lemma entity_rows_nil (id : string) (df : resampled_frame) :
  entity_rows id df = [] <-> forall row, row ∈ df -> row_key row <> Some id.
Proof.
  induction df as [|row df IH] using rev_ind.
  - split; [intros _ row H; by apply elem_of_nil in H | done].
  - rewrite entity_rows_snoc. split.
    + intros [H1 H2]%app_eq_nil row' [Hr | Hr%list_elem_of_singleton]%elem_of_app.
      * by apply IH.
      * subst row'. unfold row_key. destruct row.2 as [r|]; [|done]. simpl.
        case_bool_decide; [done | congruence].
    + intros H. rewrite (proj2 IH) by (intros; apply H; set_solver). simpl.
      assert (Hrow : row_key row <> Some id) by (apply H; set_solver).
      unfold row_key in Hrow. destruct row.2 as [r|]; [|done]. simpl in Hrow.
      case_bool_decide; [congruence | done].
Qed.

Lemma entity_rows_elem (id : string) (df : resampled_frame) (r : Reading) :
  r ∈ entity_rows id df -> firefighter_id r = id /\ exists m, (m, Some r) ∈ df.
Proof.
  induction df as [|[m cell] df IH]; [intros H; by apply elem_of_nil in H|].
  unfold entity_rows. simpl. fold (entity_rows id df).
  assert (Hrest : r ∈ entity_rows id df ->
                  firefighter_id r = id /\ exists m', (m', Some r) ∈ (m, cell) :: df).
  { intros [? [m' ?]]%IH. split; [done|]. exists m'. by right. }
  destruct cell as [r'|]; [|done].
  case_bool_decide as Hid; [|done].
  intros [-> | Hin]%elem_of_cons; [|auto].
  split; [done|]. exists m. left.
Qed.

Lemma groupby_size_lookup (df : resampled_frame) (id : string) :
  groupby_size df !! id =
  match entity_rows id df with
  | [] => None
  | rows => Some (length rows)
  end.
Proof.
  induction df as [|row df IH] using rev_ind; [done|].
  unfold groupby_size in *. rewrite foldl_snoc, entity_rows_snoc.
  destruct row.2 as [r|]; [|by rewrite app_nil_r].
  rewrite lookup_insert. case_decide as Hid; case_bool_decide; try congruence.
  - subst id. rewrite IH. destruct (entity_rows _ df); simpl; [done|].
    rewrite length_app. simpl. f_equal. lia.
  - by rewrite app_nil_r.
Qed.



Lemma assoc_traverse {A : Type} (f : string -> result (string * A))
    (keys : list string) (rows : list (string * A)) (id : string) :
  traverse f keys = Ok rows ->
  (forall k y, f k = Ok y -> y.1 = k) ->
  (id ∈ keys -> exists r, assoc id rows = Some r /\ f id = Ok (id, r))
  /\ (id ∉ keys -> assoc id rows = None).
Proof.
  intros Ht Hkey. apply traverse_Ok in Ht.
  induction Ht as [|k [k' v] keys rows Hk _ IH]; simpl.
  - split; [intros H; by apply elem_of_nil in H | done].
  - pose proof (Hkey _ _ Hk) as Hk'. simpl in Hk'. subst k'.
    destruct IH as [IH1 IH2]. case_bool_decide as Hid.
    + subst k. split; [eauto|]. intros H. exfalso. apply H. left.
    + split.
      * intros [-> | Hin]%elem_of_cons; [done | by apply IH1].
      * intros Hnin. apply IH2. intros Hin. apply Hnin. by right.
Qed.

Lemma window_row_key (self : config) (cleaned : resampled_frame) (T : Z) (w : window)
    (decimals : Z) (limits : list Q) (k : string) (y : string * WindowResult) :
  window_row self cleaned T w decimals limits k = Ok y ->
  y.1 = k
  /\ twa y.2 = (fun gas => (gas, window_twa cleaned T w decimals k gas)) <$> SUPPORTED_GASES self.
Proof.
  unfold window_row. intros H. apply bind_Ok in H as (gauges & _ & [= <-]). done.
Qed.

(** The firefighters of a window frame are those with a sample in the
    slice. *)
Lemma window_keys (df : resampled_frame) (id : string) :
  id ∈ merge_sort String.le (elements (dom (groupby_size df)))
  <-> exists row, row ∈ df /\ row_key row = Some id.
Proof.
  rewrite merge_sort_Permutation, elem_of_elements, elem_of_dom, groupby_size_lookup.
  destruct (entity_rows id df) as [|r rs] eqn:Hrows.
  - split; [intros [? [=]] |].
    intros (row & Hin & Hrow). exfalso. by eapply entity_rows_nil.
  - split; [|eauto]. intros _.
    destruct (entity_rows_elem id df r) as [Hid [m Hm]]; [rewrite Hrows; left|].
    exists (m, Some r). split; [done|]. unfold row_key. simpl. by rewrite Hid.
Qed.

(** ** One window *)

(** What a completed iteration of the window loop has computed. *)
Lemma calculate_window_Some (self : config) (cleaned : resampled_frame) (T : Z)
    (w : window) (f : window_frame) :
  calculate_window self cleaned T w = Ok (Some f) ->
  exists decimals limits,
    rounding_decimals self = Ok decimals
    /\ sanity_check (groupby_size (window_df cleaned T w)) (mins w) = true
    /\ f.1 = label w
    /\ traverse (window_row self cleaned T w decimals limits)
         (merge_sort String.le (elements (dom (groupby_size (window_df cleaned T w)))))
       = Ok f.2.
Proof.
  unfold calculate_window. destruct (window_df cleaned T w) as [|row df] eqn:Hdf; [discriminate|].
  destruct (sanity_check _ _) eqn:Hcheck; [|discriminate].
  intros H. apply bind_Ok in H as (decimals & Hd & H).
  apply bind_Ok in H as (limits & Hl & H).
  apply bind_Ok in H as (rows & Hrows & [= <-]).
  exists decimals, limits. auto.
Qed.

Lemma calculate_window_None (self : config) (cleaned : resampled_frame) (T : Z) (w : window) :
  calculate_window self cleaned T w = Ok None -> window_df cleaned T w = [].
Proof.
  unfold calculate_window. destruct (window_df cleaned T w) as [|row df]; [done|].
  destruct (sanity_check _ _); [|discriminate].
  intros H. apply bind_Ok in H as (decimals & Hd & H).
  apply bind_Ok in H as (limits & Hl & H).
  apply bind_Ok in H as (rows & Hrows & [=]).
Qed.



(** C8: a window's frame has a row (TWA and gauge values) for a firefighter
    exactly when that firefighter has at least one sample in the window's
    slice; without samples the firefighter is absent from the frame, and its
    cells of that window in the merged record are null, not zero. *)
Theorem window_result_iff_samples (self : config) (cleaned : resampled_frame) (T : Z)
    (w : window) (res : option window_frame) (id : string) :
  calculate_window self cleaned T w = Ok res ->
  ((exists f r, res = Some f /\ assoc id f.2 = Some r)
   <-> exists row, row ∈ window_df cleaned T w /\ row_key row = Some id)
  /\ ((forall row, row ∈ window_df cleaned T w -> row_key row <> Some id) ->
      forall f, res = Some f ->
        frame_cell (Some id) f = None
        /\ gauge_cells (length (SUPPORTED_GASES self)) (frame_cell (Some id) f)
           = replicate (length (SUPPORTED_GASES self)) None).
Proof.
  intros Hres.
  assert (Hiff : (exists f r, res = Some f /\ assoc id f.2 = Some r)
                 <-> exists row, row ∈ window_df cleaned T w /\ row_key row = Some id).
  { destruct res as [f|].
    - apply calculate_window_Some in Hres as (d & limits & _ & _ & _ & Hrows).
      apply (assoc_traverse _ _ _ id) in Hrows as [Hin Hnin];
        [|intros k y Hy; by apply window_row_key in Hy as [? _]].
      rewrite <- window_keys. split.
      + intros (f' & r & [= <-] & Hr).
        destruct (decide (id ∈ merge_sort String.le
                            (elements (dom (groupby_size (window_df cleaned T w))))))
          as [|Hno]; [done|].
        rewrite (Hnin Hno) in Hr. discriminate.
      + intros Hk. destruct (Hin Hk) as (r & Hr & _). eauto.
    - apply calculate_window_None in Hres. rewrite Hres. split.
      + intros (f & r & [=] & _).
      + intros (row & Hin & _). by apply elem_of_nil in Hin. }
  split; [done|]. intros Hno f ->.
  assert (Hcell : frame_cell (Some id) f = None).
  { simpl. destruct (assoc id f.2) as [r|] eqn:Hr; [|done].
    exfalso. destruct (proj1 Hiff) as (row & Hin & Hkey); [eauto|]. by apply (Hno row). }
  by rewrite Hcell.
Qed.

(** ** The key of the emitted records *)



Lemma latest_of_Some (latest : resampled_frame) (key : option string) (rd : Reading) :
  latest_of latest key = Some rd ->
  key = Some (firefighter_id rd) /\ exists m, (m, Some rd) ∈ latest.
Proof.
  unfold latest_of. destruct key as [id|]; [|discriminate].
  destruct (list_find _ latest) as [[i [m cell]]|] eqn:Hfind; [|discriminate].
  intros ->. apply list_find_Some in Hfind as (Hi & Hkey & _).
  unfold row_key in Hkey. simpl in Hkey. injection Hkey as <-.
  split; [done|]. exists m. by eapply list_elem_of_lookup_2.
Qed.

Lemma merged_row_fields (self : config) (T : Z) (latest : resampled_frame)
    (calcs : list window_frame) (key : option string) (r : AnalyticsRecord) :
  merged_row self T latest calcs key = Ok r ->
  rec_firefighter_id r = key
  /\ rec_timestamp_mins r = common_key T
  /\ rec_sensor r = latest_of latest key
  /\ rec_windows r = (fun f : window_frame => (f.1, frame_cell key f)) <$> calcs
  /\ status_LED (YELLOW_WARNING_PERCENT self)
       (concat ((fun c : string * option WindowResult =>
                   gauge_cells (length (SUPPORTED_GASES self)) c.2) <$> rec_windows r))
     = Ok (analytics_status_LED r).
Proof.
  unfold merged_row. intros H. apply bind_Ok in H as (status & Hstatus & [= <-]). done.
Qed.

Lemma everything_for_1_min_rows (self : config) (T : Z) (latest : resampled_frame)
    (calcs : list window_frame) (records : list AnalyticsRecord) (r : AnalyticsRecord) :
  everything_for_1_min self T latest calcs = Ok records -> r ∈ records ->
  exists key, merged_row self T latest calcs key = Ok r.
Proof.
  intros H Hr.
  assert (Ht : traverse (merged_row self T latest calcs) (merged_index latest calcs)
               = Ok records).
  { unfold everything_for_1_min in H.
    destruct latest, calcs; try discriminate;
      destruct (_ || _); try discriminate;
      apply bind_Ok in H as (? & _ & H); exact H. }
  apply traverse_Ok in Ht. apply list_elem_of_lookup in Hr as [i Hi].
  destruct (Forall2_lookup_r _ _ _ _ _ Ht Hi) as (key & _ & Hkey). eauto.
Qed.


(** ** The statements on the example tick *)

Lemma example_frame_10_computed :
  calculate_window example_config example_cleaned example_tick example_window_10
  = Ok (Some example_frame_10).
Proof. vm_compute. reflexivity. Defined.

Lemma example_records_computed :
  _calculate_TWA_and_gauge_for_all_firefighters example_config example_log example_tick
  = Ok example_records.
Proof. vm_compute. reflexivity. Defined.



(** On the example, A's nine samples (five at 50 ppm, four at 80 ppm, three
    of them backfilled) give 570 / 10 = 57 ppm, not 570 / 9. *)
Example example_twa_of_A :
  (fun r => twa r) <$> assoc "A" example_frame_10.2
  = Some [("carbon_monoxide", (57000 # 1000)%Q)].
Proof. vm_compute. reflexivity. Qed.

Lemma window_result_iff_samples_witness :
  calculate_window example_config example_cleaned example_tick example_window_10
  = Ok (Some example_frame_10)
  /\ ((exists f r, Some example_frame_10 = Some f /\ assoc "B" f.2 = Some r)
      <-> exists row, row ∈ window_df example_cleaned example_tick example_window_10
                      /\ row_key row = Some "B")
  /\ ((forall row, row ∈ window_df example_cleaned example_tick example_window_10 ->
         row_key row <> Some "B") ->
      forall f, Some example_frame_10 = Some f ->
        frame_cell (Some "B") f = None
        /\ gauge_cells (length (SUPPORTED_GASES example_config)) (frame_cell (Some "B") f)
           = replicate (length (SUPPORTED_GASES example_config)) None).
Proof.
  split; [exact example_frame_10_computed|].
  exact (window_result_iff_samples example_config example_cleaned example_tick
           example_window_10 (Some example_frame_10) "B" example_frame_10_computed).
Defined.



(** On the example tick (minute 1000) both records carry minute 999, and A's
    sensor fields are those of its reading at minute 999. *)
Example example_record_keys :
  (fun r => (rec_firefighter_id r, rec_timestamp_mins r / MINUTE,
             firefighter_id <$> rec_sensor r)) <$> example_records
  = [(Some "B", 999, None); (Some "A", 999, Some "A")].
Proof. vm_compute. reflexivity. Qed.

(** ** The sample-count invariant *)

(** At most [window_mins] minute numbers fall in the slice
    [T - window_mins + 1 min, T]. *)
Lemma grid_slice_length (T window_mins : Z) (grid : list Z) :
  NoDup grid ->
  Z.of_nat (length (filter (fun m => T - Timedelta_minutes window_mins + Timedelta_minutes 1
                                     <= m * MINUTE <= T) grid)) <= Z.max 0 window_mins.
Proof.
  intros Hnd.
  set (l := filter _ grid).
  assert (Hsub : l ⊆+ seqZ (T / MINUTE - window_mins + 1) window_mins).
  { apply NoDup_submseteq; [by apply NoDup_filter|].
    intros m [Hm _]%list_elem_of_filter. apply elem_of_seqZ.
    unfold Timedelta_minutes, MINUTE in *.
    assert (m <= T / 60000000000) by (apply Z.div_le_lower_bound; lia).
    assert (T / 60000000000 <= m + window_mins - 1)
      by (apply Z.div_le_upper_bound; lia).
    lia. }
  apply submseteq_length in Hsub. rewrite length_seqZ in Hsub. lia.
Qed.

Lemma loc_slice_fst {A : Type} (start stop : Z) (df : list (Z * A)) :
  (loc_slice start stop df).*1 = filter (fun m => start <= m * MINUTE <= stop) df.*1.
Proof.
  unfold loc_slice. induction df as [|[m c] df IH]; [done|].
  rewrite fmap_cons, !filter_cons. simpl. case_decide; simpl; rewrite <- IH; done.
Qed.

Lemma loc_slice_length {A : Type} (T window_mins : Z) (g : list (Z * A)) :
  NoDup g.*1 ->
  Z.of_nat (length (loc_slice (T - Timedelta_minutes window_mins + Timedelta_minutes 1) T g))
  <= Z.max 0 window_mins.
Proof.
  intros Hnd. rewrite <- (length_fmap fst), loc_slice_fst. by apply grid_slice_length.
Qed.

Lemma minute_grid_NoDup {A : Type} (rows : list (Z * A)) : NoDup (minute_grid rows).
Proof.
  unfold minute_grid. destruct rows as [|[first r] tl]; [constructor|].
  destruct (last _) as [[lst rl]|]; [apply NoDup_seqZ | constructor].
Qed.

Lemma resample_backfill_index {A : Type} (limit : nat) (rows : list (Z * A))
    (g : list (Z * option A)) :
  resample_backfill limit rows = Ok g ->
  g = zip (minute_grid rows) (backfill limit ((fun m => row_at m rows) <$> minute_grid rows))
  /\ g.*1 = minute_grid rows /\ NoDup g.*1.
Proof.
  unfold resample_backfill. case_bool_decide; [|discriminate]. intros [= <-].
  assert (Hfst : (zip (minute_grid rows)
                    (backfill limit ((fun m => row_at m rows) <$> minute_grid rows))).*1
                 = minute_grid rows).
  { rewrite fst_zip; [done|]. by rewrite length_backfill, length_fmap. }
  split; [done|]. split; [done|]. rewrite Hfst. apply minute_grid_NoDup.
Qed.

Lemma backfill_elem {A : Type} (limit : nat) (l : list (option A)) (v : A) :
  Some v ∈ backfill limit l -> Some v ∈ l.
Proof.
  induction l as [|c tl IH]; [done|]. rewrite backfill_cons.
  intros [Hhead | Htl]%elem_of_cons; [|right; by apply IH].
  destruct c as [v'|]; [rewrite Hhead; left|]. right.
  clear IH. unfold obs_within in Hhead.
  destruct (first_obs tl) as [[v' d]|] eqn:Hobs; [|discriminate].
  case_bool_decide; [|discriminate]. injection Hhead as <-.
  clear -Hobs. revert d Hobs. induction tl as [|c tl IH]; intros d; [discriminate|].
  simpl. destruct c as [v''|]; [intros [= -> _]; left|].
  destruct (first_obs tl) as [[v'' d']|]; [|discriminate].
  simpl. intros [= -> _]. right. by eapply IH.
Qed.

(** Every value of a resampled group is a reading of that group. *)
Lemma resample_backfill_values {A : Type} (limit : nat) (rows : list (Z * A))
    (g : list (Z * option A)) (m : Z) (r : A) :
  resample_backfill limit rows = Ok g -> (m, Some r) ∈ g -> exists m', (m', r) ∈ rows.
Proof.
  intros [-> _]%resample_backfill_index Hin.
  apply elem_of_zip_r, backfill_elem, list_elem_of_fmap in Hin as (m' & Hm' & _).
  exists m'. apply row_at_Some. by symmetry.
Qed.

(** The last slot of a resampled group is an observation, at the last minute
    of the group. *)
Lemma resample_backfill_last {A : Type} (limit : nat) (rows : list (Z * A))
    (g : list (Z * option A)) (row : Z * option A) :
  StronglySorted index_le rows ->
  resample_backfill limit rows = Ok g -> row ∈ g ->
  exists lst r, (lst, Some r) ∈ g /\ lst ∈ rows.*1 /\ row.1 <= lst.
Proof.
  intros Hs Hg Hrow. apply resample_backfill_index in Hg as (Hg & Hfst & _).
  assert (Hgrid : row.1 ∈ minute_grid rows).
  { rewrite <- Hfst. apply list_elem_of_fmap. eauto. }
  unfold minute_grid in Hgrid, Hg. destruct rows as [|[first r0] tl]; [by apply elem_of_nil in Hgrid|].
  destruct (last ((first, r0) :: tl)) as [[lst rl]|] eqn:Hlast; [|by apply elem_of_nil in Hgrid].
  remember ((first, r0) :: tl) as rows eqn:Hrows.
  apply elem_of_seqZ in Hgrid.
  assert (Hlst : (lst, rl) ∈ rows).
  { apply last_Some in Hlast as [l' ->]. apply elem_of_app. right. left. }
  destruct (row_at lst rows) as [r|] eqn:Hr.
  2:{ apply row_at_None in Hr. exfalso. apply Hr. apply list_elem_of_fmap. by exists (lst, rl). }
  exists lst, r. split; [|split; [apply list_elem_of_fmap; by exists (lst, rl) | lia]].
  apply (list_elem_of_lookup_2 _ (Z.to_nat (lst - first))).
  rewrite Hg. apply lookup_zip_Some. split.
  - rewrite lookup_seqZ_lt by lia. f_equal. lia.
  - rewrite backfill_lookup, list_lookup_fmap, lookup_seqZ_lt by lia. simpl.
    replace (first + Z.of_nat (Z.to_nat (lst - first))) with lst by lia. by rewrite Hr.
Qed.

Lemma StronglySorted_filter {A : Type} (R : relation A) (P : A -> Prop)
    `{forall x, Decision (P x)} (l : list A) :
  StronglySorted R l -> StronglySorted R (filter P l).
Proof.
  induction 1 as [|x l Hs IH Hx]; [constructor|].
  rewrite filter_cons. case_decide; [|done]. constructor; [done|].
  apply Forall_forall. intros y [_ Hy]%list_elem_of_filter.
  by eapply Forall_forall in Hx.
Qed.

Lemma group_rows_sorted (id : string) (df : sensor_frame) :
  StronglySorted index_le (group_rows id (sort_index df)).
Proof. apply StronglySorted_filter, StronglySorted_merge_sort; apply _. Qed.

Lemma group_rows_elem (id : string) (df : sensor_frame) (row : Z * Reading) :
  row ∈ group_rows id (sort_index df) <-> firefighter_id row.2 = id /\ row ∈ df.
Proof.
  unfold group_rows, sort_index. by rewrite list_elem_of_filter, merge_sort_Permutation.
Qed.

Lemma group_keys_NoDup (df : sensor_frame) : NoDup (group_keys df).
Proof. unfold group_keys. rewrite merge_sort_Permutation. apply NoDup_remove_dups. Qed.

Lemma resample_all_groups (df : sensor_frame) (cleaned : resampled_frame) :
  resample_all df = Ok cleaned ->
  exists groups, cleaned = concat groups
    /\ Forall2 (fun id g => resample_backfill 3 (group_rows id (sort_index df)) = Ok g)
               (group_keys (sort_index df)) groups.
Proof.
  unfold resample_all. intros H. apply bind_Ok in H as (groups & Hg & [= <-]).
  exists groups. split; [done|]. by apply traverse_Ok.
Qed.

(** The slots of the group of firefighter [k] are empty or belong to [k]. *)
Lemma group_row_key (df : sensor_frame) (k id : string) (g : resampled_frame)
    (row : Z * option Reading) :
  resample_backfill 3 (group_rows k (sort_index df)) = Ok g ->
  row ∈ g -> row_key row = Some id -> id = k.
Proof.
  intros Hg Hrow Hkey. destruct row as [m [r|]]; [|discriminate].
  unfold row_key in Hkey. simpl in Hkey. injection Hkey as <-.
  destruct (resample_backfill_values _ _ _ _ _ Hg Hrow) as [m' Hm'].
  by apply group_rows_elem in Hm' as [? _].
Qed.

Lemma entity_rows_app (id : string) (df1 df2 : resampled_frame) :
  entity_rows id (df1 ++ df2) = entity_rows id df1 ++ entity_rows id df2.
Proof. apply omap_app. Qed.

Lemma entity_rows_length (id : string) (df : resampled_frame) :
  (length (entity_rows id df) <= length df)%nat.
Proof.
  induction df as [|[m c] df IH]; [done|].
  change ((m, c) :: df) with ([(m, c)] ++ df). rewrite entity_rows_app, !length_app.
  assert (length (entity_rows id [(m, c)]) <= 1)%nat.
  { unfold entity_rows. simpl. destruct c as [r|]; [case_bool_decide|]; simpl; lia. }
  change (length [(m, c)]) with 1%nat. lia.
Qed.

Lemma loc_slice_app {A : Type} (start stop : Z) (df1 df2 : list (Z * A)) :
  loc_slice start stop (df1 ++ df2) = loc_slice start stop df1 ++ loc_slice start stop df2.
Proof. apply filter_app. Qed.

Lemma loc_slice_elem {A : Type} (start stop : Z) (df : list (Z * A)) (row : Z * A) :
  row ∈ loc_slice start stop df <-> (start <= row.1 * MINUTE <= stop) /\ row ∈ df.
Proof. unfold loc_slice. by rewrite list_elem_of_filter. Qed.

Lemma other_groups_no_sample (df : sensor_frame) (start T : Z) (keys : list string)
    (groups : list resampled_frame) (id : string) :
  Forall2 (fun k g => resample_backfill 3 (group_rows k (sort_index df)) = Ok g) keys groups ->
  id ∉ keys ->
  entity_rows id (loc_slice start T (concat groups)) = [].
Proof.
  induction 1 as [|k g keys groups Hg _ IH]; intros Hid; [done|].
  simpl. rewrite loc_slice_app, entity_rows_app.
  rewrite IH by (intros ?; apply Hid; by right). rewrite app_nil_r.
  apply entity_rows_nil. intros row [_ Hrow]%loc_slice_elem Hkey.
  assert (id = k) as -> by (by eapply group_row_key).
  apply Hid. left.
Qed.

(** A slice that holds a slot of some group also holds an observed slot. *)
Lemma observed_in_slice (df : sensor_frame) (start T : Z) (keys : list string)
    (groups : list resampled_frame) (row : Z * option Reading) :
  (forall r, r ∈ df -> r.1 * MINUTE <= T) ->
  Forall2 (fun k g => resample_backfill 3 (group_rows k (sort_index df)) = Ok g) keys groups ->
  row ∈ loc_slice start T (concat groups) ->
  exists row' id, row' ∈ loc_slice start T (concat groups) /\ row_key row' = Some id.
Proof.
  intros Hle. induction 1 as [|k g keys groups Hg _ IH]; simpl.
  { intros H. by apply elem_of_nil in H. }
  rewrite loc_slice_app. intros [Hrow | Hrow]%elem_of_app.
  - apply loc_slice_elem in Hrow as [Hslice Hrow].
    destruct (resample_backfill_last _ _ _ _ (group_rows_sorted k df) Hg Hrow)
      as (lst & r & Hlast & Hlst & Hrl).
    apply list_elem_of_fmap in Hlst as (x & -> & [_ Hx]%group_rows_elem).
    apply Hle in Hx. exists (x.1, Some r), (firefighter_id r).
    split; [|done]. apply elem_of_app. left. apply loc_slice_elem.
    split; [|done]. simpl. unfold MINUTE in *. lia.
  - destruct (IH Hrow) as (row' & id & Hrow' & Hkey).
    exists row', id. split; [|done]. apply elem_of_app. by right.
Qed.

Lemma group_sample_count (df : sensor_frame) (T window_mins : Z) (keys : list string)
    (groups : list resampled_frame) (id : string) :
  Forall2 (fun k g => resample_backfill 3 (group_rows k (sort_index df)) = Ok g) keys groups ->
  NoDup keys ->
  Z.of_nat (length (entity_rows id
              (loc_slice (T - Timedelta_minutes window_mins + Timedelta_minutes 1) T
                         (concat groups))))
  <= Z.max 0 window_mins.
Proof.
  induction 1 as [|k g keys groups Hg Hrest IH]; intros Hnd; [simpl; lia|].
  apply NoDup_cons in Hnd as [Hk Hnd]. simpl.
  rewrite loc_slice_app, entity_rows_app, length_app.
  destruct (decide (k = id)) as [-> | Hne].
  - rewrite (other_groups_no_sample df _ T keys groups id Hrest Hk). simpl.
    apply resample_backfill_index in Hg as (_ & _ & Hg).
    pose proof (loc_slice_length T window_mins g Hg).
    pose proof (entity_rows_length id
                  (loc_slice (T - Timedelta_minutes window_mins + Timedelta_minutes 1) T g)).
    lia.
  - assert (Hnone : entity_rows id
                      (loc_slice (T - Timedelta_minutes window_mins + Timedelta_minutes 1) T g)
                    = []).
    { apply entity_rows_nil. intros row [_ Hrow]%loc_slice_elem Hkey.
      apply Hne. symmetry. by eapply group_row_key. }
    rewrite Hnone. simpl. by apply IH.
Qed.

Lemma foldr_max_spec (vs : list nat) :
  match foldr (fun n acc => Some (match acc with None => n | Some m => Nat.max n m end))
              None vs with
  | Some m => m ∈ vs /\ Forall (fun n => (n <= m)%nat) vs
  | None => vs = []
  end.
Proof.
  induction vs as [|v vs IH]; [done|]. simpl.
  destruct (foldr _ None vs) as [m|].
  - destruct IH as [Hin Hall]. split.
    + destruct (Nat.max_spec v m) as [[_ ->] | [_ ->]]; [by right | left].
    + constructor; [lia|]. eapply Forall_impl; [done|]. simpl. lia.
  - subst vs. split; [left | by repeat constructor].
Qed.

Lemma size_max_spec (sizes : gmap string nat) :
  match size_max sizes with
  | Some m => (exists id, sizes !! id = Some m)
              /\ forall id n, sizes !! id = Some n -> (n <= m)%nat
  | None => sizes = ∅
  end.
Proof.
  unfold size_max. pose proof (foldr_max_spec (map_to_list sizes).*2) as H.
  destruct (foldr _ None _) as [m|].
  - destruct H as [Hin Hall]. split.
    + apply list_elem_of_fmap in Hin as ([id n] & -> & Hin).
      exists id. by apply elem_of_map_to_list.
    + intros id n Hn. apply elem_of_map_to_list in Hn.
      eapply Forall_forall in Hall; [exact Hall|].
      apply list_elem_of_fmap. by exists (id, n).
  - apply fmap_nil_inv in H. by apply map_to_list_empty_iff.
Qed.

Lemma sanity_check_true (sizes : gmap string nat) (window_mins : Z) :
  (forall id n, sizes !! id = Some n -> Z.of_nat n <= window_mins) ->
  (exists id n, sizes !! id = Some n) ->
  sanity_check sizes window_mins = true.
Proof.
  intros Hbound (id & n & Hn). unfold sanity_check.
  pose proof (size_max_spec sizes) as H. destruct (size_max sizes) as [m|].
  - destruct H as [[id' Hm] _]. apply bool_decide_eq_true. by eapply Hbound.
  - subst sizes. by rewrite lookup_empty in Hn.
Qed.

Lemma sanity_check_false (sizes : gmap string nat) (window_mins : Z) (id : string) (n : nat) :
  sizes !! id = Some n -> window_mins < Z.of_nat n ->
  sanity_check sizes window_mins = false.
Proof.
  intros Hn Hlt. unfold sanity_check.
  pose proof (size_max_spec sizes) as H. destruct (size_max sizes) as [m|]; [|done].
  destruct H as [_ Hmax]. apply Hmax in Hn. apply bool_decide_eq_false. lia.
Qed.

Lemma groupby_size_sample (df : resampled_frame) (id : string) :
  (exists n, groupby_size df !! id = Some n) <-> exists row, row ∈ df /\ row_key row = Some id.
Proof.
  rewrite <- window_keys, merge_sort_Permutation, elem_of_elements, elem_of_dom. done.
Qed.

(** What the resampled frame of a block ending at [T] guarantees to every
    window. *)
Lemma resampled_window_sanity (chunk : sensor_frame) (start T : Z)
    (cleaned : resampled_frame) (w : window) :
  resample_all (loc_slice start T chunk) = Ok cleaned ->
  (forall id n, groupby_size (window_df cleaned T w) !! id = Some n -> Z.of_nat n <= mins w)
  /\ (window_df cleaned T w <> [] ->
      sanity_check (groupby_size (window_df cleaned T w)) (mins w) = true).
Proof.
  intros (groups & -> & Hgroups)%resample_all_groups.
  assert (Hbound : forall id n,
             groupby_size (window_df (concat groups) T w) !! id = Some n ->
             Z.of_nat n <= mins w).
  { intros id n Hn. rewrite groupby_size_lookup in Hn.
    pose proof (group_sample_count _ T (mins w) _ _ id Hgroups (group_keys_NoDup _)) as Hc.
    fold (window_df (concat groups) T w) in Hc.
    destruct (entity_rows id (window_df (concat groups) T w)); [discriminate|].
    injection Hn as <-. simpl in *. lia. }
  split; [done|]. intros Hne. apply sanity_check_true; [done|].
  assert (exists row, row ∈ window_df (concat groups) T w) as [row Hrow].
  { destruct (window_df (concat groups) T w) as [|row rest]; [done|]. exists row. left. }
  destruct (observed_in_slice (loc_slice start T chunk)
              (T - Timedelta_minutes (mins w) + Timedelta_minutes 1) T
              (group_keys (sort_index (loc_slice start T chunk))) groups row)
    as (row' & id & Hrow' & Hkey); [|exact Hgroups|exact Hrow|].
  - intros r [[_ ?] _]%loc_slice_elem. done.
  - exists id. apply groupby_size_sample. exists row'. split; [exact Hrow' | exact Hkey].
Qed.

Lemma check_bins_Err (bins : list edge) (e : exn) : check_bins bins = Err e -> not_assertion e.
Proof.
  unfold check_bins. destruct (any_decrease bins); [by intros [= <-]|].
  destruct (_ && _); [by intros [= <-] | discriminate].
Qed.

Lemma everything_for_1_min_Err (self : config) (T : Z) (latest : resampled_frame)
    (calcs : list window_frame) (e : exn) :
  everything_for_1_min self T latest calcs = Err e -> not_assertion e.
Proof.
  assert (Hrows : traverse (merged_row self T latest calcs) (merged_index latest calcs) = Err e
                  -> not_assertion e).
  { intros (key & _ & Hkey)%traverse_Err. unfold merged_row, status_LED in Hkey.
    destruct (check_bins _) eqn:Hbins; simpl in Hkey; [discriminate|].
    injection Hkey as <-. by eapply check_bins_Err. }
  assert (Hbody : (check_bins (status_bins (YELLOW_WARNING_PERCENT self)) ≫= fun _ =>
                   traverse (merged_row self T latest calcs) (merged_index latest calcs))
                  = Err e -> not_assertion e).
  { intros [H | (? & _ & H)]%bind_Err; [by eapply check_bins_Err | auto]. }
  unfold everything_for_1_min.
  destruct latest, calcs; try (by intros [= <-]);
    destruct (_ || _); try (by intros [= <-]); exact Hbody.
Qed.

Lemma resample_all_Err (df : sensor_frame) (e : exn) :
  resample_all df = Err e -> not_assertion e.
Proof.
  unfold resample_all. intros [H | (? & _ & [=])]%bind_Err.
  apply traverse_Err in H as (id & _ & H). unfold resample_backfill in H.
  case_bool_decide; [discriminate|]. by injection H as <-.
Qed.

Lemma calculate_window_Err (self : config) (cleaned : resampled_frame) (T : Z)
    (w : window) (e : exn) :
  (window_df cleaned T w <> [] ->
   sanity_check (groupby_size (window_df cleaned T w)) (mins w) = true) ->
  calculate_window self cleaned T w = Err e -> not_assertion e.
Proof.
  intros Hsane. unfold calculate_window.
  destruct (window_df cleaned T w) as [|row rest] eqn:Hdf; [discriminate|].
  rewrite Hsane by done.
  intros [H | (decimals & _ & H)]%bind_Err.
  { unfold rounding_decimals in H. destruct (SAFE_ROUNDING_FACTOR self); [discriminate|].
    by injection H as <-. }
  apply bind_Err in H as [H | (limits & _ & H)].
  { by apply traverse_Err in H as (gas & _ & [-> _]%getitem_Err). }
  apply bind_Err in H as [H | (rows & _ & [=])].
  apply traverse_Err in H as (id & _ & H). unfold window_row in H.
  apply bind_Err in H as [H | (? & _ & [=])].
  apply traverse_Err in H as (gl & _ & H).
  apply bind_Err in H as [H | (? & _ & [=])].
  unfold gauge_of in H. destruct (Qeq_bool _ _); [by injection H as <- | discriminate].
Qed.

(** With at most one reading per firefighter and minute, every group can be
    resampled. *)
Lemma resample_all_total (df : sensor_frame) :
  NoDup ((fun row : Z * Reading => (firefighter_id row.2, row.1)) <$> df) ->
  exists cleaned, resample_all df = Ok cleaned.
Proof.
  intros Hnd. unfold resample_all.
  destruct (traverse_total
              (fun id => resample_backfill 3 (group_rows id (sort_index df)))
              (group_keys (sort_index df))) as [groups ->]; [|simpl; eauto].
  intros id _. unfold resample_backfill. rewrite bool_decide_eq_true_2; [eauto|].
  set (l := group_rows id (sort_index df)).
  assert (Hl : NoDup ((fun row : Z * Reading => (firefighter_id row.2, row.1)) <$> l)).
  { apply (sublist_NoDup _ ((fun row : Z * Reading => (firefighter_id row.2, row.1))
                              <$> sort_index df)).
    - unfold sort_index. by rewrite merge_sort_Permutation.
    - apply fmap_sublist, sublist_filter. }
  assert (Heq : (fun row : Z * Reading => (firefighter_id row.2, row.1)) <$> l
                = (fun m => (id, m)) <$> l.*1).
  { rewrite <- list_fmap_compose. apply list_fmap_ext.
    intros i row Hrow%list_elem_of_lookup_2. apply group_rows_elem in Hrow as [<- _]. done. }
  rewrite Heq in Hl. by apply NoDup_fmap_1 in Hl.
Qed.

(** C6: when the sensor log has at most one reading per firefighter and
    minute, the block ending at the tick resamples without error and no
    firefighter has more samples in a window's slice than the window has
    minutes; the sanity assertion never fires in a tick; and on any frame
    in which a firefighter does have more samples than minutes, the
    iteration stops with an [AssertionError] instead of producing a
    result. *)
Theorem sample_count_invariant (self : config) (chunk : sensor_frame) (T : Z) :
  NoDup ((fun row : Z * Reading => (firefighter_id row.2, row.1)) <$> chunk) ->
  (forall start, exists cleaned,
      resample_all (loc_slice start T chunk) = Ok cleaned
      /\ forall w id n, groupby_size (window_df cleaned T w) !! id = Some n ->
                        Z.of_nat n <= mins w)
  /\ (forall message,
        _calculate_TWA_and_gauge_for_all_firefighters self chunk T
        <> Err (AssertionError message))
  /\ (forall frame w id n,
        groupby_size (window_df frame T w) !! id = Some n -> mins w < Z.of_nat n ->
        calculate_window self frame T w = Err (AssertionError [])).
Proof.
  intros Hnd. split; [|split].
  - intros start.
    destruct (resample_all_total (loc_slice start T chunk)) as [cleaned Hcleaned].
    { apply (sublist_NoDup _ ((fun row : Z * Reading => (firefighter_id row.2, row.1))
                                <$> chunk)); [done|].
      apply fmap_sublist, sublist_filter. }
    exists cleaned. split; [done|]. intros w.
    by apply (resampled_window_sanity chunk start T cleaned w).
  - intros message H.
    unfold _calculate_TWA_and_gauge_for_all_firefighters in H.
    apply bind_Err in H as [H | (longest & _ & H)].
    { unfold first_item in H. by destruct (windows_in_descending_order self). }
    apply bind_Err in H as [H | (cleaned & Hcleaned & H)].
    { by apply resample_all_Err in H. }
    apply bind_Err in H as [H | (calcs & _ & H)].
    + apply traverse_Err in H as (w & _ & H).
      apply calculate_window_Err in H; [done|].
      by apply (resampled_window_sanity chunk _ T cleaned w Hcleaned).
    + by apply everything_for_1_min_Err in H.
  - intros frame w id n Hn Hlt. unfold calculate_window.
    destruct (window_df frame T w) as [|row rest] eqn:Hdf;
      [by rewrite groupby_size_lookup in Hn|].
    by rewrite (sanity_check_false _ _ id n Hn Hlt).
Qed.

Lemma example_log_unique :
  NoDup ((fun row : Z * Reading => (firefighter_id row.2, row.1)) <$> example_log).
Proof. apply (bool_decide_unpack _). vm_compute. exact I. Defined.

Lemma sample_count_invariant_witness :
  NoDup ((fun row : Z * Reading => (firefighter_id row.2, row.1)) <$> example_log)
  /\ (forall start, exists cleaned,
        resample_all (loc_slice start example_tick example_log) = Ok cleaned
        /\ forall w id n, groupby_size (window_df cleaned example_tick w) !! id = Some n ->
                          Z.of_nat n <= mins w)
  /\ (forall message,
        _calculate_TWA_and_gauge_for_all_firefighters example_config example_log example_tick
        <> Err (AssertionError message))
  /\ (forall frame w id n,
        groupby_size (window_df frame example_tick w) !! id = Some n ->
        mins w < Z.of_nat n ->
        calculate_window example_config frame example_tick w = Err (AssertionError [])).
Proof.
  split; [exact example_log_unique|].
  exact (sample_count_invariant example_config example_log example_tick example_log_unique).
Defined.

(** A frame that could not come out of the resampler, with two slots of A at
    minute 1000, trips the assertion of a one-minute window. *)
Example duplicate_slot_trips_assertion :
  calculate_window example_config
    [(1000, Some (example_reading "A" (50 # 1)%Q));
     (1000, Some (example_reading "A" (50 # 1)%Q))]
    example_tick {| label := "1min"; mins := 1;
                    gas_limits := <["carbon_monoxide" := (100 # 1)%Q]> ∅ |}
  = Err (AssertionError []).
Proof. vm_compute. reflexivity. Qed.

(** Two readings of one firefighter in one minute stop the resampler before
    any window is looked at. *)
Example duplicate_reading_stops_resample :
  _calculate_TWA_and_gauge_for_all_firefighters example_config
    [(999, example_reading "A" (50 # 1)%Q); (999, example_reading "A" (60 # 1)%Q)]
    example_tick
  = Err (ValueError "cannot reindex a non-unique index with a method or limit").
Proof. vm_compute. reflexivity. Qed.

(** ** The status of the emitted records *)


(** * Further properties of the code *)

(** ** What [_validate_config] accepts *)

Lemma Qltb_false (a b : Q) : Qltb a b = false <-> (b <= a)%Q.
Proof.
  unfold Qltb. rewrite negb_false_iff. apply Qle_bool_iff.
Qed.

Lemma Qltb_true (a b : Q) : Qltb a b = true <-> (a < b)%Q.
Proof.
  unfold Qltb. rewrite negb_true_iff. split.
  - intros H. apply Qnot_le_lt. intros Hle%Qle_bool_iff. congruence.
  - intros H. destruct (Qle_bool b a) eqn:E; [|done].
    apply Qle_bool_iff in E. exfalso. by apply (Qlt_not_le a b).
Qed.

(** Python's [min] returns an element of the list that is below all of
    them; [max] likewise above. *)
Lemma py_min_spec (l : list Q) (lo : Q) :
  py_min l = Ok lo -> lo ∈ l /\ forall x, x ∈ l -> (lo <= x)%Q.
Proof.
  destruct l as [|x0 tl]; [discriminate|]. simpl. intros [= <-].
  assert (H : forall acc,
             let m := foldl (fun m y => if Qltb y m then y else m) acc tl in
             (m = acc \/ m ∈ tl) /\ (m <= acc)%Q /\ forall y, y ∈ tl -> (m <= y)%Q).
  { induction tl as [|y tl IH]; intros acc; simpl.
    - split; [by left|]. split; [apply Qle_refl|]. intros y Hy. by apply elem_of_nil in Hy.
    - destruct (IH (if Qltb y acc then y else acc)) as (Hin & Hle & Hall).
      destruct (Qltb y acc) eqn:E.
      + apply Qltb_true in E. split; [destruct Hin as [-> | ?]; right; [left | by right]|].
        split; [eapply Qle_trans; [exact Hle | by apply Qlt_le_weak]|].
        intros z [-> | Hz]%elem_of_cons; auto.
      + apply Qltb_false in E. split; [destruct Hin as [-> | ?]; [by left | right; by right]|].
        split; [done|].
        intros z [-> | Hz]%elem_of_cons; [by eapply Qle_trans | auto]. }
  destruct (H x0) as (Hin & Hle & Hall). split.
  - destruct Hin as [-> | ?]; [left | by right].
  - intros x [-> | Hx]%elem_of_cons; auto.
Qed.

Lemma py_max_spec (l : list Q) (hi : Q) :
  py_max l = Ok hi -> hi ∈ l /\ forall x, x ∈ l -> (x <= hi)%Q.
Proof.
  destruct l as [|x0 tl]; [discriminate|]. simpl. intros [= <-].
  assert (H : forall acc,
             let m := foldl (fun m y => if Qltb m y then y else m) acc tl in
             (m = acc \/ m ∈ tl) /\ (acc <= m)%Q /\ forall y, y ∈ tl -> (y <= m)%Q).
  { induction tl as [|y tl IH]; intros acc; simpl.
    - split; [by left|]. split; [apply Qle_refl|]. intros y Hy. by apply elem_of_nil in Hy.
    - destruct (IH (if Qltb acc y then y else acc)) as (Hin & Hle & Hall).
      destruct (Qltb acc y) eqn:E.
      + apply Qltb_true in E. split; [destruct Hin as [-> | ?]; right; [left | by right]|].
        split; [eapply Qle_trans; [by apply Qlt_le_weak | exact Hle]|].
        intros z [-> | Hz]%elem_of_cons; auto.
      + apply Qltb_false in E. split; [destruct Hin as [-> | ?]; [by left | right; by right]|].
        split; [done|].
        intros z [-> | Hz]%elem_of_cons; [by eapply Qle_trans | auto]. }
  destruct (H x0) as (Hin & Hle & Hall). split.
  - destruct Hin as [-> | ?]; [left | by right].
  - intros x [-> | Hx]%elem_of_cons; auto.
Qed.

Lemma getitem_Ok {V : Type} (d : gmap string V) (k : string) (v : V) :
  getitem d k = Ok v <-> d !! k = Some v.
Proof. unfold getitem. destruct (d !! k); split; congruence. Qed.

Lemma mismatched_configs_idx_nil (ws : list window) :
  mismatched_configs_idx ws = [] <->
  forall w0 w, head ws = Some w0 -> w ∈ ws -> dom (gas_limits w) = dom (gas_limits w0).
Proof.
  unfold mismatched_configs_idx. destruct ws as [|w0 tl].
  { split; [intros _ w0 w [=] | done]. }
  set (ws := w0 :: tl). split.
  - intros Hnil w0' w [= <-] [i Hi]%list_elem_of_lookup.
    destruct (decide (dom (gas_limits w) = dom (gas_limits w0))) as [|Hne]; [done|].
    assert (Hin : i ∈ omap (fun iw : nat * window =>
                              if same_gases iw.2 w0 then None else Some iw.1)
                           (imap pair ws)).
    { apply list_elem_of_omap. exists (i, w). split.
      - by apply (elem_of_lookup_imap_2 pair).
      - unfold same_gases. simpl. by rewrite bool_decide_eq_false_2. }
    rewrite Hnil in Hin. by apply elem_of_nil in Hin.
  - intros Hsame.
    destruct (omap _ (imap pair ws)) as [|i rest] eqn:Hidx; [done|]. exfalso.
    assert (Hin : i ∈ omap (fun iw : nat * window =>
                              if same_gases iw.2 w0 then None else Some iw.1)
                           (imap pair ws)) by (rewrite Hidx; left).
    apply list_elem_of_omap in Hin as ([j w] & Hjw & Hf).
    apply elem_of_lookup_imap in Hjw as (j' & w' & [= -> ->] & Hw').
    unfold same_gases in Hf. simpl in Hf.
    rewrite bool_decide_eq_true_2 in Hf; [discriminate|].
    apply Hsame; [done|]. by eapply list_elem_of_lookup_2.
Qed.

Section Checks.
Variable self : config.

Lemma check_gas_sets_Ok (i o : list config_issue) :
  check_gas_sets self i = Ok o ->
  (mismatched_configs_idx (WINDOWS_AND_LIMITS self) = [] /\ o = i) \/ o <> [].
Proof.
  unfold check_gas_sets.
  destruct (mismatched_configs_idx (WINDOWS_AND_LIMITS self)) as [|j rest].
  - intros [= <-]. by left.
  - intros (w0 & _ & [= <-])%bind_Ok. right. by destruct i.
Qed.

Lemma check_supported_covered_Ok (i o : list config_issue) :
  check_supported_covered self i = Ok o ->
  WINDOWS_AND_LIMITS self <> [] /\ (o = i \/ o <> []).
Proof.
  unfold check_supported_covered. intros (w0 & Hw0 & H)%bind_Ok.
  split; [by destruct (WINDOWS_AND_LIMITS self)|].
  destruct (forallb _ _); injection H as <-; [by left | right; by destruct i].
Qed.

Lemma check_sensor_range_of_Ok (gas : string) (i o : list config_issue) :
  check_sensor_range_of self gas i = Ok o ->
  (limits_in_range self gas /\ o = i) \/ o <> [].
Proof.
  unfold check_sensor_range_of. intros (limits & Hlimits & H)%bind_Ok.
  apply bind_Ok in H as (lo & Hlo & H). apply bind_Ok in H as (range & Hrange & H).
  apply traverse_Ok in Hlimits. apply py_min_spec in Hlo as [_ Hlo].
  apply getitem_Ok in Hrange.
  destruct (Qltb lo range.1) eqn:Elo; [injection H as <-; right; by destruct i|].
  apply bind_Ok in H as (hi & Hhi & H). apply py_max_spec in Hhi as [_ Hhi].
  destruct (Qltb range.2 hi) eqn:Ehi; injection H as <-; [right; by destruct i|].
  left. split; [|done]. intros w [j Hj]%list_elem_of_lookup.
  destruct (Forall2_lookup_l _ _ _ _ _ Hlimits Hj) as (limit & Hlimit & Hget).
  apply getitem_Ok in Hget. apply list_elem_of_lookup_2 in Hlimit.
  exists limit. split; [done|]. exists range. split; [done|].
  apply Qltb_false in Elo, Ehi. split.
  - eapply Qle_trans; [exact Elo | by apply Hlo].
  - eapply Qle_trans; [by apply Hhi | exact Ehi].
Qed.

Lemma check_sensor_ranges_Ok (gases : list string) (i o : list config_issue) :
  check_sensor_ranges self gases i = Ok o ->
  ((forall gas, gas ∈ gases -> limits_in_range self gas) /\ o = i) \/ o <> [].
Proof.
  revert i. induction gases as [|gas rest IH]; intros i; simpl.
  - intros [= <-]. left. split; [|done]. intros gas H. by apply elem_of_nil in H.
  - intros (i' & Hgas & Hrest)%bind_Ok.
    apply IH in Hrest as [[Hall ->] | ?]; [|by right].
    apply check_sensor_range_of_Ok in Hgas as [[Hone ->] | ?]; [|by right].
    left. split; [|done]. intros g [-> | Hg]%elem_of_cons; auto.
Qed.

Lemma check_yellow_Ok (i o : list config_issue) :
  check_yellow self i = Ok o ->
  (0 < YELLOW_WARNING_PERCENT self < 100 /\ o = i) \/ o <> [].
Proof.
  unfold check_yellow. repeat case_bool_decide; simpl; intros [= <-];
    (left; split; [lia | done]) || (right; by destruct i).
Qed.

Lemma check_rounding_Ok (i o : list config_issue) :
  check_rounding self i = Ok o ->
  ((exists z, SAFE_ROUNDING_FACTOR self = JInt z /\ 0 <= z) /\ o = i) \/ o <> [].
Proof.
  unfold check_rounding. destruct (SAFE_ROUNDING_FACTOR self) as [z|q].
  - case_bool_decide; intros [= <-]; [left; eauto | right; by destruct i].
  - intros [= <-]. right. by destruct i.
Qed.

(** The converse: a check whose condition holds returns the issues it was
    given. *)
Lemma check_sensor_range_of_pass (gas : string) (i : list config_issue) :
  WINDOWS_AND_LIMITS self <> [] -> limits_in_range self gas ->
  check_sensor_range_of self gas i = Ok i.
Proof.
  intros Hne Hrange. unfold check_sensor_range_of.
  destruct (traverse_total (fun w => getitem (gas_limits w) gas) (WINDOWS_AND_LIMITS self))
    as [limits Hlimits].
  { intros w Hw. destruct (Hrange w Hw) as (limit & Hl & _). exists limit. by apply getitem_Ok. }
  rewrite Hlimits. simpl. apply traverse_Ok in Hlimits.
  assert (Hall : forall limit, limit ∈ limits -> within_sensor_range gas limit).
  { intros limit [j Hj]%list_elem_of_lookup.
    destruct (Forall2_lookup_r _ _ _ _ _ Hlimits Hj) as (w & Hw & Hget).
    apply getitem_Ok in Hget. apply list_elem_of_lookup_2 in Hw.
    destruct (Hrange w Hw) as (limit' & Hl & Hin). congruence. }
  destruct limits as [|l0 ls].
  { apply Forall2_length in Hlimits. by destruct (WINDOWS_AND_LIMITS self). }
  destruct (py_min (l0 :: ls)) as [lo|] eqn:Hlo; [|done].
  destruct (py_max (l0 :: ls)) as [hi|] eqn:Hhi; [|done].
  apply py_min_spec in Hlo as [Hlo _]. apply py_max_spec in Hhi as [Hhi _].
  destruct (Hall lo Hlo) as (range & Hr & Hlo1 & _).
  destruct (Hall hi Hhi) as (range' & Hr' & _ & Hhi2).
  assert (range' = range) as -> by congruence.
  simpl. unfold getitem. rewrite Hr. simpl.
  rewrite (proj2 (Qltb_false lo range.1) Hlo1). simpl.
  by rewrite (proj2 (Qltb_false range.2 hi) Hhi2).
Qed.

Lemma check_sensor_ranges_pass (gases : list string) (i : list config_issue) :
  WINDOWS_AND_LIMITS self <> [] ->
  (forall gas, gas ∈ gases -> limits_in_range self gas) ->
  check_sensor_ranges self gases i = Ok i.
Proof.
  intros Hne. induction gases as [|gas rest IH]; intros Hall; [done|]. simpl.
  rewrite check_sensor_range_of_pass by (auto; apply Hall; left). simpl.
  apply IH. intros g Hg. apply Hall. by right.
Qed.
End Checks.

(** X1: [_validate_config] returns normally exactly for the configurations
    that have at least one window, the same set of gases in every window's
    limits, for every supported gas a limit in every window that lies
    within the hard-coded range of that gas's sensor, a yellow percentage
    strictly between 0 and 100 and an integer rounding factor that is not
    negative. *)
Theorem validate_config_accepts (self : config) :
  _validate_config self = Ok tt <-> accepted_config self.
Proof.
  split.
  - unfold _validate_config. intros (issues & Hissues & H)%bind_Ok.
    destruct issues; [clear H | discriminate].
    unfold critical_config_issues in Hissues.
    apply bind_Ok in Hissues as (i1 & H1 & Hissues).
    apply bind_Ok in Hissues as (i2 & H2 & Hissues).
    apply bind_Ok in Hissues as (i3 & H3 & Hissues).
    apply bind_Ok in Hissues as (i4 & H4 & H5).
    apply check_rounding_Ok in H5 as [[Hround <-] | ?]; [|done].
    apply check_yellow_Ok in H4 as [[Hyellow <-] | ?]; [|done].
    apply check_sensor_ranges_Ok in H3 as [[Hranges <-] | ?]; [|done].
    apply check_supported_covered_Ok in H2 as [Hne [<- | ?]]; [|done].
    apply check_gas_sets_Ok in H1 as [[Hsets _] | ?]; [|done].
    split; try done. by apply mismatched_configs_idx_nil.
  - intros [Hne Hsets Hlimits Hyellow (z & Hz & Hz0)].
    unfold _validate_config, critical_config_issues.
    assert (H1 : check_gas_sets self [] = Ok []).
    { unfold check_gas_sets. by rewrite (proj2 (mismatched_configs_idx_nil _) Hsets). }
    assert (H2 : check_supported_covered self [] = Ok []).
    { unfold check_supported_covered.
      destruct (WINDOWS_AND_LIMITS self) as [|w0 tl] eqn:Hw; [done|]. simpl.
      assert (Hall : forallb (fun gas => bool_decide (gas ∈ dom (gas_limits w0)))
                       (SUPPORTED_GASES self) = true); [|by rewrite Hall].
      apply forallb_forall. intros gas Hgas%list_elem_of_In.
      apply bool_decide_eq_true, elem_of_dom.
      destruct (Hlimits gas Hgas w0) as (limit & -> & _); [rewrite Hw; left | eauto]. }
    rewrite H1. simpl. rewrite H2. simpl.
    rewrite check_sensor_ranges_pass by done. simpl.
    unfold check_yellow. rewrite !bool_decide_eq_true_2 by lia. simpl.
    unfold check_rounding. rewrite Hz. by rewrite bool_decide_eq_true_2.
Qed.

(** The example configuration is accepted. *)
Example example_config_accepted : _validate_config example_config = Ok tt.
Proof. vm_compute. reflexivity. Qed.

Lemma validate_config_accepts_witness :
  _validate_config example_config = Ok tt /\ accepted_config example_config.
Proof.
  assert (H : _validate_config example_config = Ok tt) by (vm_compute; reflexivity).
  split; [exact H|]. exact (proj1 (validate_config_accepts example_config) H).
Defined.

(** ** Configurations that make validation raise instead of report *)

Lemma check_sensor_ranges_raises (self : config) (w0 : window) (ws : list window)
    (gas : string) (gases : list string) (issues : list config_issue) :
  WINDOWS_AND_LIMITS self = w0 :: ws ->
  gas ∈ gases -> (forall i, exists e, check_sensor_range_of self gas i = Err e) ->
  exists key, check_sensor_ranges self gases issues = Err (KeyError key).
Proof.
  intros Hw Hin Hraise. revert issues.
  induction gases as [|g rest IH]; intros issues; [by apply elem_of_nil in Hin|].
  simpl. destruct (check_sensor_range_of self g issues) as [issues'|e] eqn:Hg; simpl.
  - apply elem_of_cons in Hin as [-> | Hin]; [|by apply IH].
    destruct (Hraise issues) as [e He]. congruence.
  - destruct (check_sensor_range_of_Err self w0 ws g issues e Hw Hg) as [key ->]. eauto.
Qed.

(** X2: a supported gas for which no sensor range is hard-coded (any gas
    other than carbon monoxide and nitrogen dioxide) makes validation raise
    [KeyError], whatever limits the configuration gives it. *)
Theorem unknown_sensor_gas_raises (self : config) (gas : string) :
  WINDOWS_AND_LIMITS self <> [] ->
  gas ∈ SUPPORTED_GASES self -> SENSOR_RANGE_PPM !! gas = None ->
  exists key, _validate_config self = Err (KeyError key).
Proof.
  intros Hne Hgas Hrange.
  destruct (WINDOWS_AND_LIMITS self) as [|w0 ws] eqn:Hw; [done|].
  unfold _validate_config, critical_config_issues.
  assert (exists i1, check_gas_sets self [] = Ok i1) as [i1 ->].
  { unfold check_gas_sets. rewrite Hw.
    destruct (mismatched_configs_idx (w0 :: ws)); simpl; eauto. }
  simpl.
  assert (exists i2, check_supported_covered self i1 = Ok i2) as [i2 ->].
  { unfold check_supported_covered. rewrite Hw. simpl. destruct (forallb _ _); eauto. }
  simpl.
  destruct (check_sensor_ranges_raises self w0 ws gas (SUPPORTED_GASES self) i2)
    as [key ->]; [done..| |by simpl; eauto].
  intros i. unfold check_sensor_range_of.
  destruct (traverse _ (WINDOWS_AND_LIMITS self)) as [limits|e] eqn:Hl; simpl; [|eauto].
  destruct (py_min limits) as [lo|e]; simpl; [|eauto].
  unfold getitem at 1. rewrite Hrange. simpl. eauto.
Qed.


Lemma unknown_sensor_gas_raises_witness :
  WINDOWS_AND_LIMITS ozone_config <> []
  /\ "ozone" ∈ SUPPORTED_GASES ozone_config
  /\ SENSOR_RANGE_PPM !! "ozone" = None
  /\ exists key, _validate_config ozone_config = Err (KeyError key).
Proof.
  assert (H1 : WINDOWS_AND_LIMITS ozone_config <> []) by discriminate.
  assert (H2 : "ozone" ∈ SUPPORTED_GASES ozone_config) by left.
  assert (H3 : SENSOR_RANGE_PPM !! "ozone" = None) by (vm_compute; reflexivity).
  split; [exact H1|]. split; [exact H2|]. split; [exact H3|].
  exact (unknown_sensor_gas_raises ozone_config "ozone" H1 H2 H3).
Defined.

(** X3: a configuration without any window makes validation raise
    [IndexError] at the second check; no diagnostic is assembled. *)
Theorem no_window_raises (self : config) :
  WINDOWS_AND_LIMITS self = [] -> _validate_config self = Err IndexError.
Proof.
  intros Hw. unfold _validate_config, critical_config_issues, check_gas_sets,
    check_supported_covered. rewrite Hw. reflexivity.
Qed.

Lemma no_window_raises_witness :
  WINDOWS_AND_LIMITS (Config [] ["carbon_monoxide"] 80 (JInt 3)) = []
  /\ _validate_config (Config [] ["carbon_monoxide"] 80 (JInt 3)) = Err IndexError.
Proof.
  split; [reflexivity|].
  exact (no_window_raises (Config [] ["carbon_monoxide"] 80 (JInt 3)) eq_refl).
Defined.

(** ** An accepted configuration and the window loop *)

Lemma sensor_range_positive (gas : string) (range : Q * Q) :
  SENSOR_RANGE_PPM !! gas = Some range -> (0 < range.1)%Q.
Proof.
  unfold SENSOR_RANGE_PPM. rewrite lookup_insert. case_decide.
  { intros [= <-]. reflexivity. }
  rewrite lookup_insert. case_decide.
  { intros [= <-]. reflexivity. }
  by rewrite lookup_empty.
Qed.

(** X4: under an accepted configuration, an iteration of the window loop on
    the resampled frame of a block ending at the tick never raises: every
    configured window either is skipped or yields its frame. *)
Theorem accepted_config_window_total (self : config) (chunk : sensor_frame) (start T : Z)
    (cleaned : resampled_frame) (w : window) :
  accepted_config self -> w ∈ WINDOWS_AND_LIMITS self ->
  resample_all (loc_slice start T chunk) = Ok cleaned ->
  exists res, calculate_window self cleaned T w = Ok res.
Proof.
  intros [_ _ Hlimits _ (z & Hz & _)] Hw Hcleaned.
  destruct (resampled_window_sanity chunk start T cleaned w Hcleaned) as [_ Hsane].
  unfold calculate_window.
  destruct (window_df cleaned T w) as [|row rest] eqn:Hdf; [eauto|].
  rewrite Hsane by done. unfold rounding_decimals. rewrite Hz. simpl.
  destruct (traverse_total (fun gas => getitem (gas_limits w) gas) (SUPPORTED_GASES self))
    as [limits Hl].
  { intros gas Hgas. destruct (Hlimits gas Hgas w Hw) as (limit & Hlimit & _).
    exists limit. by apply getitem_Ok. }
  rewrite Hl. simpl. apply traverse_Ok in Hl.
  destruct (traverse_total (window_row self cleaned T w z limits)
              (merge_sort String.le (elements (dom (groupby_size (row :: rest))))))
    as [rows Hrows]; [|rewrite Hrows; simpl; eauto].
  intros id _. unfold window_row.
  destruct (traverse_total
              (fun gl : string * Q =>
                 g ← gauge_of (window_twa cleaned T w z id gl.1) gl.2; Ok (gl.1, g))
              (zip (SUPPORTED_GASES self) limits)) as [gauges Hg]; [|rewrite Hg; simpl; eauto].
  intros [gas limit] [i Hi]%list_elem_of_lookup.
  apply lookup_zip_Some in Hi as [Hgas Hlimit].
  pose proof (Forall2_lookup_lr _ _ _ _ _ _ Hl Hgas Hlimit) as Hget.
  apply getitem_Ok in Hget. apply list_elem_of_lookup_2 in Hgas.
  destruct (Hlimits gas Hgas w Hw) as (limit' & Hlimit' & range & Hrange & Hlo & _).
  assert (limit' = limit) as -> by congruence.
  apply sensor_range_positive in Hrange.
  assert (Hpos : (0 < limit)%Q) by (by eapply Qlt_le_trans).
  simpl. unfold gauge_of.
  destruct (Qeq_bool limit 0) eqn:E; [|simpl; eauto].
  apply Qeq_bool_iff in E. rewrite E in Hpos. by apply Qlt_irrefl in Hpos.
Qed.

Lemma example_config_ok : accepted_config example_config.
Proof.
  split.
  - discriminate.
  - intros w0 w [= <-] Hw. unfold example_config in Hw. simpl in Hw.
    repeat (apply elem_of_cons in Hw as [-> | Hw]); [reflexivity | | by apply elem_of_nil in Hw].
    vm_compute. reflexivity.
  - intros gas Hgas w Hw. unfold example_config in Hgas, Hw. simpl in Hgas, Hw.
    apply list_elem_of_singleton in Hgas as ->.
    repeat (apply elem_of_cons in Hw as [-> | Hw]); [| | by apply elem_of_nil in Hw].
    + exists (100 # 1)%Q. split; [vm_compute; reflexivity|].
      exists ((1 # 1)%Q, (1000 # 1)%Q). split; [vm_compute; reflexivity|].
      split; discriminate.
    + exists (50 # 1)%Q. split; [vm_compute; reflexivity|].
      exists ((1 # 1)%Q, (1000 # 1)%Q). split; [vm_compute; reflexivity|].
      split; discriminate.
  - simpl. lia.
  - exists 3. split; [reflexivity | lia].
Defined.

Lemma accepted_config_window_total_witness :
  accepted_config example_config
  /\ example_window_10 ∈ WINDOWS_AND_LIMITS example_config
  /\ resample_all (loc_slice 0 example_tick example_log) = Ok example_cleaned
  /\ exists res,
       calculate_window example_config example_cleaned example_tick example_window_10
       = Ok res.
Proof.
  pose proof example_config_ok as H1.
  assert (H2 : example_window_10 ∈ WINDOWS_AND_LIMITS example_config) by left.
  assert (H3 : resample_all (loc_slice 0 example_tick example_log) = Ok example_cleaned)
    by (vm_compute; reflexivity).
  split; [exact H1|]. split; [exact H2|]. split; [exact H3|].
  exact (accepted_config_window_total example_config example_log 0 example_tick
           example_cleaned example_window_10 H1 H2 H3).
Defined.

(** ** A yellow percentage of 1 *)

Lemma everything_for_1_min_bins (self : config) (T : Z) (latest : resampled_frame)
    (calcs : list window_frame) (records : list AnalyticsRecord) :
  everything_for_1_min self T latest calcs = Ok records ->
  check_bins (status_bins (YELLOW_WARNING_PERCENT self)) = Ok tt.
Proof.
  unfold everything_for_1_min.
  destruct latest, calcs; try discriminate;
    destruct (_ || _); try discriminate;
    intros ([] & Hbins & _)%bind_Ok; exact Hbins.
Qed.

(** X5: a yellow percentage of 1 passes the yellow check of the validation,
    but makes the bin edges of the status repeat ([0, 0, 99, inf]): the
    status cut raises [ValueError] for every row, so no tick ever returns
    records. *)
Theorem yellow_one_fails_every_tick (self : config) (chunk : sensor_frame) (T : Z) :
  YELLOW_WARNING_PERCENT self = 1 ->
  (forall issues, check_yellow self issues = Ok issues)
  /\ (forall gauges,
        status_LED (YELLOW_WARNING_PERCENT self) gauges
        = Err (ValueError "Bin edges must be unique"))
  /\ forall records,
       _calculate_TWA_and_gauge_for_all_firefighters self chunk T <> Ok records.
Proof.
  intros HY. split; [|split].
  - intros issues. unfold check_yellow. rewrite HY. reflexivity.
  - intros gauges. unfold status_LED. rewrite HY. reflexivity.
  - intros records H. unfold _calculate_TWA_and_gauge_for_all_firefighters in H.
    apply bind_Ok in H as (longest & _ & H).
    apply bind_Ok in H as (cleaned & _ & H).
    apply bind_Ok in H as (calcs & _ & H).
    apply everything_for_1_min_bins in H. rewrite HY in H. discriminate.
Qed.

Lemma yellow_one_fails_every_tick_witness :
  YELLOW_WARNING_PERCENT yellow_one_config = 1
  /\ _validate_config yellow_one_config = Ok tt
  /\ (forall issues, check_yellow yellow_one_config issues = Ok issues)
  /\ (forall gauges,
        status_LED (YELLOW_WARNING_PERCENT yellow_one_config) gauges
        = Err (ValueError "Bin edges must be unique"))
  /\ forall records,
       _calculate_TWA_and_gauge_for_all_firefighters yellow_one_config example_log
         example_tick <> Ok records.
Proof.
  split; [reflexivity|]. split; [vm_compute; reflexivity|].
  exact (yellow_one_fails_every_tick yellow_one_config example_log example_tick eq_refl).
Defined.

(** ** The analytics table *)


(** ** A block whose rows all precede the calculation slice *)

#[global] Instance mins_ge_trans : Transitive mins_ge.
Proof. intros a b c. unfold mins_ge. lia. Qed.

#[global] Instance mins_ge_total : Total mins_ge.
Proof. intros a b. unfold mins_ge. lia. Qed.






(** ** The records of a tick and the firefighters of the block *)

Lemma everything_for_1_min_traverse (self : config) (T : Z) (latest : resampled_frame)
    (calcs : list window_frame) (records : list AnalyticsRecord) :
  everything_for_1_min self T latest calcs = Ok records ->
  traverse (merged_row self T latest calcs) (merged_index latest calcs) = Ok records.
Proof.
  unfold everything_for_1_min.
  destruct latest, calcs; try discriminate;
    destruct (_ || _); try discriminate;
    intros (? & _ & H)%bind_Ok; exact H.
Qed.




Lemma elem_of_concat {A : Type} (x : A) (g : list A) (groups : list (list A)) :
  g ∈ groups -> x ∈ g -> x ∈ concat groups.
Proof.
  induction groups as [|g' groups IH]; [intros H; by apply elem_of_nil in H|].
  simpl. intros [-> | Hg]%elem_of_cons Hx; apply elem_of_app; [by left | right; auto].
Qed.

Lemma sorted_ge_first {A : Type} (first : Z) (r : A) (tl : list (Z * A)) (y : Z * A) :
  StronglySorted index_le ((first, r) :: tl) -> y ∈ (first, r) :: tl -> first <= y.1.
Proof.
  intros [_ Hall]%StronglySorted_inv [-> | Hy]%elem_of_cons; [simpl; lia|].
  by eapply Forall_forall in Hall.
Qed.

(** Resampling keeps every minute that has a reading as an observed slot. *)
Lemma resample_backfill_observed {A : Type} (limit : nat) (rows : list (Z * A))
    (g : list (Z * option A)) (m : Z) (r : A) :
  StronglySorted index_le rows ->
  resample_backfill limit rows = Ok g -> (m, r) ∈ rows ->
  exists r', row_at m rows = Some r' /\ (m, Some r') ∈ g.
Proof.
  intros Hs Hg Hin. apply resample_backfill_index in Hg as (Hg & _ & _).
  destruct (row_at m rows) as [r'|] eqn:Hr.
  2:{ apply row_at_None in Hr. exfalso. apply Hr, list_elem_of_fmap. by exists (m, r). }
  exists r'. split; [done|].
  unfold minute_grid in Hg. destruct rows as [|[first r0] tl]; [by apply elem_of_nil in Hin|].
  destruct (last ((first, r0) :: tl)) as [[lst rl]|] eqn:Hlast.
  2:{ by apply last_None in Hlast. }
  pose proof (sorted_ge_first first r0 tl (m, r) Hs Hin) as Hlo.
  pose proof (sorted_le_last _ (lst, rl) (m, r) Hs Hlast Hin) as Hhi. simpl in Hlo, Hhi.
  remember ((first, r0) :: tl) as rows eqn:Hrows.
  apply (list_elem_of_lookup_2 _ (Z.to_nat (m - first))).
  rewrite Hg. apply lookup_zip_Some. split.
  - rewrite lookup_seqZ_lt by lia. f_equal. lia.
  - rewrite backfill_lookup, list_lookup_fmap, lookup_seqZ_lt by lia. simpl.
    replace (first + Z.of_nat (Z.to_nat (m - first))) with m by lia. by rewrite Hr.
Qed.

Lemma assoc_Some_elem {A : Type} (id : string) (rows : list (string * A)) (v : A) :
  assoc id rows = Some v -> (id, v) ∈ rows.
Proof.
  induction rows as [|[k v'] tl IH]; simpl; [discriminate|].
  case_bool_decide as Hk; [intros [= ->]; subst k; left | intros H; right; auto].
Qed.

(** X9: every firefighter with a reading in the slice of the longest window,
    [time - longest + 1 min, time], gets a record, and that record carries a
    result for the longest window. *)
Theorem sampled_firefighter_has_record (self : config) (chunk : sensor_frame) (T : Z)
    (records : list AnalyticsRecord) (longest : window) (row : Z * Reading) :
  _calculate_TWA_and_gauge_for_all_firefighters self chunk T = Ok records ->
  first_item (windows_in_descending_order self) = Ok longest ->
  row ∈ chunk ->
  T - Timedelta_minutes (mins longest) + Timedelta_minutes 1 <= row.1 * MINUTE <= T ->
  exists r, r ∈ records
    /\ rec_firefighter_id r = Some (firefighter_id row.2)
    /\ exists result, (label longest, Some result) ∈ rec_windows r.
Proof.
  unfold _calculate_TWA_and_gauge_for_all_firefighters. intros H Hlongest Hrow Hslice.
  rewrite Hlongest in H. simpl in H.
  apply bind_Ok in H as (cleaned & Hcleaned & H).
  apply bind_Ok in H as (calcs & Hcalcs & H).
  set (df := loc_slice (T - Timedelta_minutes (mins longest) + Timedelta_minutes 1) T chunk)
    in *.
  set (id := firefighter_id row.2).
  (* the firefighter has an observed slot in the resampled frame *)
  apply resample_all_groups in Hcleaned as (groups & -> & Hgroups).
  assert (Hdf : row ∈ df) by (by apply loc_slice_elem).
  assert (Hkey : id ∈ group_keys (sort_index df)).
  { unfold group_keys. rewrite merge_sort_Permutation, elem_of_remove_dups.
    apply list_elem_of_fmap. exists row. split; [done|].
    unfold sort_index. by rewrite merge_sort_Permutation. }
  apply list_elem_of_lookup in Hkey as [i Hi].
  destruct (Forall2_lookup_l _ _ _ _ _ Hgroups Hi) as (g & Hg & Hres).
  destruct (resample_backfill_observed 3 _ g row.1 row.2 (group_rows_sorted id df) Hres)
    as (r' & Hr' & Hslot).
  { apply group_rows_elem. split; [done|]. by destruct row. }
  apply row_at_Some, group_rows_elem in Hr' as [Hid _]. simpl in Hid.
  assert (Hwin : (row.1, Some r') ∈ window_df (concat groups) T longest).
  { apply loc_slice_elem. split; [done|].
    eapply elem_of_concat; [by eapply list_elem_of_lookup_2 | done]. }
  (* hence a row in the frame of the longest window *)
  destruct (windows_in_descending_order self) as [|w0 ws] eqn:Hws; [discriminate|].
  injection Hlongest as ->. simpl in Hcalcs.
  apply bind_Ok in Hcalcs as (c0 & Hc0 & Hcalcs).
  apply bind_Ok in Hcalcs as (cs & _ & [= <-]).
  destruct c0 as [f|].
  2:{ apply calculate_window_None in Hc0. rewrite Hc0 in Hwin. by apply elem_of_nil in Hwin. }
  apply calculate_window_Some in Hc0 as (d & limits & _ & _ & Hlabel & Hrows).
  apply (assoc_traverse _ _ _ id) in Hrows as [Hin _];
    [|intros k y Hy; by apply window_row_key in Hy as [? _]].
  destruct Hin as (result & Hresult & _).
  { apply window_keys. exists (row.1, Some r'). split; [done|].
    unfold row_key. simpl. by rewrite Hid. }
  (* and a record *)
  simpl in H. apply everything_for_1_min_traverse in H. apply traverse_Ok in H.
  assert (Hidx : Some id ∈ merged_index
                   (latest_sensor_readings T (concat groups)) (f :: omap (fun c => c) cs)).
  { unfold merged_index. rewrite elem_of_remove_dups. apply elem_of_app. right.
    apply list_elem_of_fmap. exists (id, result). split; [done|].
    simpl. apply elem_of_app. left. by apply assoc_Some_elem. }
  apply list_elem_of_lookup in Hidx as [j Hj].
  destruct (Forall2_lookup_l _ _ _ _ _ H Hj) as (r & Hr & Hmerged).
  apply merged_row_fields in Hmerged as (Hrid & _ & _ & Hwindows & _).
  exists r. split; [by eapply list_elem_of_lookup_2|]. split; [done|].
  exists result. rewrite Hwindows. simpl. rewrite Hresult, Hlabel. left.
Qed.

Lemma sampled_firefighter_has_record_witness :
  _calculate_TWA_and_gauge_for_all_firefighters example_config example_log example_tick
  = Ok example_records
  /\ first_item (windows_in_descending_order example_config) = Ok example_window_60
  /\ (950, example_reading "B" (7 # 1)%Q) ∈ example_log
  /\ example_tick - Timedelta_minutes (mins example_window_60) + Timedelta_minutes 1
     <= 950 * MINUTE <= example_tick
  /\ exists r, r ∈ example_records
       /\ rec_firefighter_id r = Some "B"
       /\ exists result, (label example_window_60, Some result) ∈ rec_windows r.
Proof.
  assert (H2 : first_item (windows_in_descending_order example_config)
               = Ok example_window_60) by (vm_compute; reflexivity).
  assert (H3 : (950, example_reading "B" (7 # 1)%Q) ∈ example_log) by left.
  assert (H4 : example_tick - Timedelta_minutes (mins example_window_60)
               + Timedelta_minutes 1 <= 950 * MINUTE <= example_tick)
    by (cbv; split; discriminate).
  split; [exact example_records_computed|]. split; [exact H2|].
  split; [exact H3|]. split; [exact H4|].
  exact (sampled_firefighter_has_record example_config example_log example_tick
           example_records example_window_60 (950, example_reading "B" (7 # 1)%Q)
           example_records_computed H2 H3 H4).
Defined.

(** ** When resampling succeeds *)

Lemma resample_backfill_unique {A : Type} (limit : nat) (rows : list (Z * A))
    (g : list (Z * option A)) :
  resample_backfill limit rows = Ok g -> NoDup rows.*1.
Proof. unfold resample_backfill. by case_bool_decide. Qed.

Lemma pairs_NoDup (l : sensor_frame) :
  (forall id, NoDup (group_rows id l).*1) ->
  NoDup ((fun row : Z * Reading => (firefighter_id row.2, row.1)) <$> l).
Proof.
  induction l as [|x l IH]; intros Hgroups; [constructor|].
  rewrite fmap_cons. apply NoDup_cons. split.
  - intros (y & Hxy & Hy)%list_elem_of_fmap. injection Hxy as Hid Hm.
    specialize (Hgroups (firefighter_id x.2)). unfold group_rows in Hgroups.
    rewrite filter_cons_True in Hgroups by done.
    rewrite fmap_cons in Hgroups. apply NoDup_cons in Hgroups as [Hnin _].
    apply Hnin. rewrite Hm. apply list_elem_of_fmap. exists y. split; [done|].
    apply list_elem_of_filter. by split.
  - apply IH. intros id. specialize (Hgroups id). unfold group_rows in *.
    rewrite filter_cons in Hgroups. case_decide; [|done].
    rewrite fmap_cons in Hgroups. by apply NoDup_cons in Hgroups as [_ ?].
Qed.

(** X10: the resampling step succeeds exactly when the frame holds at most
    one reading per firefighter and minute; otherwise pandas refuses to
    reindex and the tick fails. *)
Theorem resample_all_iff_unique (df : sensor_frame) :
  (exists cleaned, resample_all df = Ok cleaned)
  <-> NoDup ((fun row : Z * Reading => (firefighter_id row.2, row.1)) <$> df).
Proof.
  split; [|apply resample_all_total].
  intros [cleaned (groups & _ & Hgroups)%resample_all_groups].
  assert (Hsorted : NoDup ((fun row : Z * Reading => (firefighter_id row.2, row.1))
                             <$> sort_index df)).
  { apply pairs_NoDup. intros id.
    destruct (decide (id ∈ group_keys (sort_index df))) as [Hid | Hid].
    - apply list_elem_of_lookup in Hid as [i Hi].
      destruct (Forall2_lookup_l _ _ _ _ _ Hgroups Hi) as (g & _ & Hg).
      by apply resample_backfill_unique in Hg.
    - assert (Hnone : group_rows id (sort_index df) = []); [|rewrite Hnone; constructor].
      destruct (group_rows id (sort_index df)) as [|row rest] eqn:Hrows; [done|].
      exfalso. apply Hid. unfold group_keys.
      rewrite merge_sort_Permutation, elem_of_remove_dups. apply list_elem_of_fmap.
      assert (Hrow : row ∈ group_rows id (sort_index df)) by (rewrite Hrows; left).
      apply list_elem_of_filter in Hrow as [Hrid Hrow]. eauto. }
  unfold sort_index in Hsorted. by rewrite merge_sort_Permutation in Hsorted.
Qed.

Lemma resample_all_iff_unique_witness :
  (exists cleaned, resample_all example_log = Ok cleaned)
  /\ NoDup ((fun row : Z * Reading => (firefighter_id row.2, row.1)) <$> example_log).
Proof.
  split; [|exact example_log_unique].
  exact (proj2 (resample_all_iff_unique example_log) example_log_unique).
Defined.

(** ** What resampling keeps *)

Lemma row_at_unique {A : Type} (rows : list (Z * A)) (m : Z) (r : A) :
  NoDup rows.*1 -> (m, r) ∈ rows -> row_at m rows = Some r.
Proof.
  induction rows as [|[m' r'] tl IH]; [intros _ H; by apply elem_of_nil in H|].
  rewrite fmap_cons. intros [Hnin Hnd]%NoDup_cons [[= -> ->] | Hin]%elem_of_cons; simpl.
  - by rewrite bool_decide_eq_true_2.
  - rewrite bool_decide_eq_false_2; [auto|].
    intros ->. apply Hnin. apply list_elem_of_fmap. by exists (m, r).
Qed.

(** X11: whatever the fill limit, the resampled series of one firefighter
    has exactly one slot for every minute from its first to its last
    reading, and the slot of a minute that has a reading holds that reading
    unchanged. *)
Theorem resample_keeps_readings {A : Type} (limit : nat) (rows : list (Z * A))
    (g : list (Z * option A)) (first lst : Z) (r0 rl : A) :
  StronglySorted index_le rows ->
  head rows = Some (first, r0) -> last rows = Some (lst, rl) ->
  resample_backfill limit rows = Ok g ->
  g.*1 = seqZ first (lst - first + 1)
  /\ forall m r, (m, r) ∈ rows -> (m, Some r) ∈ g.
Proof.
  intros Hs Hhead Hlast Hg. split.
  - apply resample_backfill_index in Hg as (_ & -> & _). unfold minute_grid.
    destruct rows as [|[first' r0'] tl]; [discriminate|]. injection Hhead as -> ->.
    by rewrite Hlast.
  - intros m r Hin.
    destruct (resample_backfill_observed limit rows g m r Hs Hg Hin) as (r' & Hr' & Hslot).
    rewrite (row_at_unique rows m r) in Hr'; [by injection Hr' as <- | | done].
    by eapply resample_backfill_unique.
Qed.

Lemma resample_keeps_readings_witness :
  StronglySorted index_le [(0, 10); (6, 40)]
  /\ head [(0, 10); (6, 40)] = Some (0, 10) /\ last [(0, 10); (6, 40)] = Some (6, 40)
  /\ resample_backfill 0 [(0, 10); (6, 40)]
     = Ok [(0, Some 10); (1, None); (2, None); (3, None); (4, None); (5, None); (6, Some 40)]
  /\ [(0, Some 10); (1, None); (2, None); (3, None); (4, None); (5, None);
      (6, Some 40)].*1 = seqZ 0 (6 - 0 + 1)
  /\ forall m r, (m, r) ∈ [(0, 10); (6, 40)] ->
       (m, Some r) ∈ [(0, Some 10); (1, None); (2, None); (3, None); (4, None); (5, None);
                      (6, Some 40)].
Proof.
  assert (Hs : StronglySorted index_le [(0, 10); (6, 40)]).
  { repeat constructor; unfold index_le; simpl; lia. }
  split; [exact Hs|]. split; [reflexivity|]. split; [reflexivity|]. split; [reflexivity|].
  exact (resample_keeps_readings 0 [(0, 10); (6, 40)] _ 0 6 10 40 Hs eq_refl eq_refl eq_refl).
Defined.

(** ** Rounding *)










(** ** More gauges never lower the status *)

(** X14: with 1 < yellow_warning_percent < 100, a row that has a status
    keeps or raises it (green < yellow < red) when further gauge cells are
    taken into account: any gas or window can only push the status up. *)
Theorem status_LED_monotone (Y : Z) (gauges more : list (option Z)) (s : Z) :
  1 < Y < 100 ->
  status_LED Y gauges = Ok (Some s) ->
  exists s', status_LED Y (gauges ++ more) = Ok (Some s') /\ s <= s'.
Proof.
  intros HY. unfold status_LED. rewrite check_bins_status by done. simpl.
  destruct (nanmax gauges) as [m|] eqn:Hm; [|discriminate].
  rewrite cut_status_value by done. intros Hs.
  apply nanmax_Some in Hm as [Hin Hmax].
  destruct (nanmax (gauges ++ more)) as [m'|] eqn:Hm'.
  2:{ apply nanmax_None in Hm'. specialize (Hm' (Some m)).
      discriminate Hm'. apply elem_of_app. by left. }
  apply nanmax_Some in Hm' as [_ Hmax'].
  assert (m <= m') by (apply Hmax', elem_of_app; by left).
  rewrite cut_status_value by done. unfold GREEN, YELLOW, RED in *.
  repeat case_bool_decide; try discriminate; try lia;
    injection Hs as <-; eexists; (split; [reflexivity | lia]).
Qed.

Lemma status_LED_monotone_witness :
  1 < 80 < 100
  /\ status_LED 80 [Some 45] = Ok (Some 1)
  /\ exists s', status_LED 80 ([Some 45] ++ [None; Some 120]) = Ok (Some s') /\ 1 <= s'.
Proof.
  split; [lia|]. split; [reflexivity|].
  apply (status_LED_monotone 80 [Some 45] [None; Some 120] 1); [lia | reflexivity].
Defined.

(** ** The queried block *)


(** ** Non-negative readings *)









(** ** Where the carried sensor fields come from *)

Lemma first_obs_lookup {A : Type} (l : list (option A)) (v : A) (d : nat) :
  first_obs l = Some (v, d) -> l !! d = Some (Some v).
Proof.
  revert d. induction l as [|c tl IH]; intros d; simpl; [discriminate|].
  destruct c as [v'|]; [by intros [= -> <-]|].
  destruct (first_obs tl) as [[v' d']|]; [|discriminate]. simpl.
  intros [= -> <-]. by apply IH.
Qed.

(** A filled slot holds the reading of its own minute or of one of the
    [limit] minutes after it. *)
Lemma resample_backfill_origin {A : Type} (limit : nat) (rows : list (Z * A))
    (g : list (Z * option A)) (m : Z) (r : A) :
  resample_backfill limit rows = Ok g -> (m, Some r) ∈ g ->
  exists m', (m', r) ∈ rows /\ m <= m' <= m + Z.of_nat limit.
Proof.
  intros (-> & _ & _)%resample_backfill_index [i Hi]%list_elem_of_lookup.
  apply lookup_zip_Some in Hi as [Hgrid Hcell].
  set (dense := (fun m => row_at m rows) <$> minute_grid rows) in *.
  assert (Hdense : forall j c, dense !! j = Some (Some c) ->
            exists mj, minute_grid rows !! j = Some mj /\ (mj, c) ∈ rows).
  { intros j c Hj. unfold dense in Hj. rewrite list_lookup_fmap in Hj.
    destruct (minute_grid rows !! j) as [mj|] eqn:Hmj; [|discriminate].
    simpl in Hj. injection Hj as Hj. exists mj. split; [done | by apply row_at_Some]. }
  assert (Hstep : forall j mj, minute_grid rows !! j = Some mj -> mj = m + (Z.of_nat j - Z.of_nat i)).
  { intros j mj Hj. unfold minute_grid in Hgrid, Hj.
    destruct rows as [|[first r0] tl]; [discriminate|].
    destruct (last _) as [[lst rl]|]; [|discriminate].
    pose proof (lookup_lt_Some _ _ _ Hgrid) as Hli. rewrite length_seqZ in Hli.
    pose proof (lookup_lt_Some _ _ _ Hj) as Hlj. rewrite length_seqZ in Hlj.
    rewrite lookup_seqZ_lt in Hgrid, Hj by lia. injection Hgrid as <-. injection Hj as <-. lia. }
  rewrite backfill_lookup in Hcell.
  destruct (dense !! i) as [[c|]|] eqn:Hc; simpl in Hcell; try discriminate.
  - injection Hcell as ->. destruct (Hdense i r Hc) as (mi & Hmi & Hin).
    rewrite Hgrid in Hmi. injection Hmi as <-. exists m. split; [done | lia].
  - injection Hcell as Hcell. unfold obs_within in Hcell.
    destruct (first_obs (drop (S i) dense)) as [[v d]|] eqn:Hobs; [|discriminate].
    case_bool_decide; [|discriminate]. injection Hcell as ->.
    apply first_obs_lookup in Hobs. rewrite lookup_drop in Hobs.
    destruct (Hdense _ _ Hobs) as (mj & Hmj & Hin).
    apply Hstep in Hmj. exists mj. split; [done | lia].
Qed.

Lemma concat_group (df : sensor_frame) (keys : list string) (groups : list resampled_frame)
    (row : Z * option Reading) :
  Forall2 (fun k g => resample_backfill 3 (group_rows k (sort_index df)) = Ok g) keys groups ->
  row ∈ concat groups ->
  exists k g, resample_backfill 3 (group_rows k (sort_index df)) = Ok g /\ row ∈ g.
Proof.
  induction 1 as [|k g keys groups Hg _ IH]; simpl; [intros H; by apply elem_of_nil in H|].
  intros [Hrow | Hrow]%elem_of_app; eauto.
Qed.

(** An observed slot of the resampled frame holds a reading of the frame
    that was resampled, stored against the slot's minute or one of the three
    minutes after it. *)
Lemma resampled_slot_origin (df : sensor_frame) (cleaned : resampled_frame) (m : Z)
    (rd : Reading) :
  resample_all df = Ok cleaned -> (m, Some rd) ∈ cleaned ->
  exists m', (m', rd) ∈ df /\ m <= m' <= m + 3.
Proof.
  intros (groups & -> & Hgroups)%resample_all_groups Hin.
  destruct (concat_group _ _ _ _ Hgroups Hin) as (k & g & Hg & Hslot).
  destruct (resample_backfill_origin 3 _ g m rd Hg Hslot) as (m' & Hm' & Hrange).
  apply group_rows_elem in Hm' as [_ Hm']. exists m'. split; [done | lia].
Qed.

(** X17: the sensor fields a record carries are a reading of that record's
    firefighter taken from the block, stored against the record's own minute
    or (backfilled) against a later minute that is at most 3 minutes after
    it and not after the tick. *)
Theorem carried_fields_origin (self : config) (chunk : sensor_frame) (T : Z)
    (records : list AnalyticsRecord) (r : AnalyticsRecord) (rd : Reading) :
  _calculate_TWA_and_gauge_for_all_firefighters self chunk T = Ok records ->
  r ∈ records -> rec_sensor r = Some rd ->
  rec_firefighter_id r = Some (firefighter_id rd)
  /\ exists m, (m, rd) ∈ chunk
       /\ rec_timestamp_mins r <= m * MINUTE <= rec_timestamp_mins r + 3 * MINUTE
       /\ m * MINUTE <= T.
Proof.
  unfold _calculate_TWA_and_gauge_for_all_firefighters. intros H Hr Hrd.
  apply bind_Ok in H as (longest & _ & H).
  apply bind_Ok in H as (cleaned & Hcleaned & H).
  apply bind_Ok in H as (calcs & _ & H).
  destruct (everything_for_1_min_rows _ _ _ _ _ _ H Hr) as [key Hkey].
  apply merged_row_fields in Hkey as (Hid & Hts & Hsensor & _).
  rewrite Hsensor in Hrd. apply latest_of_Some in Hrd as [-> (m & Hm)].
  split; [done|].
  apply list_elem_of_filter in Hm as [Hm Hin]. simpl in Hm.
  destruct (resampled_slot_origin _ _ m rd Hcleaned Hin) as (m' & Hm' & Hrange).
  apply loc_slice_elem in Hm' as [[_ Hle] Hchunk]. simpl in Hle.
  exists m'. split; [done|]. rewrite Hts, <- Hm. unfold MINUTE in *. split; lia.
Qed.

Lemma tick_minute_records_computed :
  _calculate_TWA_and_gauge_for_all_firefighters example_config tick_minute_log example_tick
  = Ok tick_minute_records.
Proof. vm_compute. reflexivity. Defined.

Lemma tick_minute_record_emitted : tick_minute_record ∈ tick_minute_records.
Proof. vm_compute. left. Defined.

Lemma carried_fields_origin_witness :
  _calculate_TWA_and_gauge_for_all_firefighters example_config tick_minute_log example_tick
  = Ok tick_minute_records
  /\ tick_minute_record ∈ tick_minute_records
  /\ rec_sensor tick_minute_record = Some (example_reading "A" (80 # 1)%Q)
  /\ rec_firefighter_id tick_minute_record
     = Some (firefighter_id (example_reading "A" (80 # 1)%Q))
  /\ exists m, (m, example_reading "A" (80 # 1)%Q) ∈ tick_minute_log
       /\ rec_timestamp_mins tick_minute_record <= m * MINUTE
          <= rec_timestamp_mins tick_minute_record + 3 * MINUTE
       /\ m * MINUTE <= example_tick.
Proof.
  assert (Hrd : rec_sensor tick_minute_record = Some (example_reading "A" (80 # 1)%Q))
    by (vm_compute; reflexivity).
  split; [exact tick_minute_records_computed|]. split; [exact tick_minute_record_emitted|].
  split; [exact Hrd|].
  exact (carried_fields_origin example_config tick_minute_log example_tick
           tick_minute_records tick_minute_record (example_reading "A" (80 # 1)%Q)
           tick_minute_records_computed tick_minute_record_emitted Hrd).
Defined.

(** X18: a firefighter whose readings in the block are all older than the
    record's minute gets a record with null sensor fields (its TWA columns
    are computed all the same). *)
Theorem stale_firefighter_null_fields (self : config) (chunk : sensor_frame) (T : Z)
    (records : list AnalyticsRecord) (r : AnalyticsRecord) (id : string) :
  _calculate_TWA_and_gauge_for_all_firefighters self chunk T = Ok records ->
  r ∈ records -> rec_firefighter_id r = Some id ->
  (forall row, row ∈ chunk -> firefighter_id row.2 = id ->
     row.1 * MINUTE < rec_timestamp_mins r) ->
  rec_sensor r = None.
Proof.
  unfold _calculate_TWA_and_gauge_for_all_firefighters. intros H Hr Hid Hstale.
  apply bind_Ok in H as (longest & _ & H).
  apply bind_Ok in H as (cleaned & Hcleaned & H).
  apply bind_Ok in H as (calcs & _ & H).
  destruct (everything_for_1_min_rows _ _ _ _ _ _ H Hr) as [key Hkey].
  apply merged_row_fields in Hkey as (Hkid & Hts & Hsensor & _).
  destruct (rec_sensor r) as [rd|] eqn:Hrd; [exfalso | done].
  symmetry in Hsensor. apply latest_of_Some in Hsensor as [-> (m & Hm)].
  apply list_elem_of_filter in Hm as [Hm Hin]. simpl in Hm.
  destruct (resampled_slot_origin _ _ m rd Hcleaned Hin) as (m' & Hm' & Hrange).
  apply loc_slice_elem in Hm' as [_ Hchunk].
  rewrite Hkid in Hid. injection Hid as Hid.
  specialize (Hstale (m', rd) Hchunk Hid). simpl in Hstale.
  rewrite Hts, <- Hm in Hstale. unfold MINUTE in *. lia.
Qed.

Lemma example_record_B_emitted : example_record_B ∈ example_records.
Proof. vm_compute. left. Defined.

Lemma example_B_stale :
  forall row, row ∈ example_log -> firefighter_id row.2 = "B" ->
    row.1 * MINUTE < rec_timestamp_mins example_record_B.
Proof.
  assert (Hts : rec_timestamp_mins example_record_B = 999 * MINUTE)
    by (vm_compute; reflexivity).
  rewrite Hts.
  assert (H : Forall (fun row : Z * Reading =>
                        firefighter_id row.2 = "B" -> row.1 * MINUTE < 999 * MINUTE)
                     example_log)
    by (apply (bool_decide_unpack _); vm_compute; exact I).
  intros row Hrow. eapply Forall_forall in H; [exact H | exact Hrow].
Defined.

Lemma stale_firefighter_null_fields_witness :
  _calculate_TWA_and_gauge_for_all_firefighters example_config example_log example_tick
  = Ok example_records
  /\ example_record_B ∈ example_records
  /\ rec_firefighter_id example_record_B = Some "B"
  /\ (forall row, row ∈ example_log -> firefighter_id row.2 = "B" ->
        row.1 * MINUTE < rec_timestamp_mins example_record_B)
  /\ rec_sensor example_record_B = None.
Proof.
  assert (Hid : rec_firefighter_id example_record_B = Some "B") by (vm_compute; reflexivity).
  split; [exact example_records_computed|]. split; [exact example_record_B_emitted|].
  split; [exact Hid|]. split; [exact example_B_stale|].
  exact (stale_firefighter_null_fields example_config example_log example_tick
           example_records example_record_B "B" example_records_computed
           example_record_B_emitted Hid example_B_stale).
Defined.

(** ** The block query and the calculation slice *)




(** ** Windows without length *)

(** X21: the length of a window is not validated, and a window of zero or
    negative length has an empty slice in every tick: its iteration is
    skipped and it contributes no column. *)
Theorem nonpositive_window_skipped (self : config) (cleaned : resampled_frame) (T : Z)
    (w : window) :
  mins w <= 0 -> calculate_window self cleaned T w = Ok None.
Proof.
  intros Hmins. unfold calculate_window, window_df.
  rewrite loc_slice_nil; [done|].
  intros row _. unfold Timedelta_minutes, MINUTE. lia.
Qed.

Lemma nonpositive_window_skipped_witness :
  mins {| label := "now"; mins := 0;
          gas_limits := <["carbon_monoxide" := (100 # 1)%Q]> ∅ |} <= 0
  /\ calculate_window example_config example_cleaned example_tick
       {| label := "now"; mins := 0;
          gas_limits := <["carbon_monoxide" := (100 # 1)%Q]> ∅ |} = Ok None.
Proof.
  split; [simpl; lia|].
  apply (nonpositive_window_skipped example_config example_cleaned example_tick); simpl; lia.
Defined.
